(** * wincnc_post: the WinCNC post-processor of the Path workbench

    A shallow embedding of [src/post-processors/wincnc_post.py] and the
    properties of its command-serialization engine.

    The Python module keeps its configuration, its line counter and its
    tool-change flag in module-level globals.  They are modelled as one
    record, [Module], threaded through every function that reads or
    writes a global; whatever is local to a call of [parse] ([out],
    [lastcommand], [currLocation]) lives in the record [Loop].  Python
    exceptions are results: a function returns [Raise e] together with
    the module state reached when the exception left it.

    FreeCAD and the Python library (the [Units] quantities, [format],
    [int], [argparse], [shlex], [open], the editor dialog) are outside the
    repository; they enter the model as the interface [Host], with the
    exceptions they raise: [format] and [int] return a result or raise. *)

From Stdlib Require Import ZArith String Ascii List DecimalString Bool Lia.
From Stdlib Require Floats.
From stdpp Require Import gmap strings list.

Local Open Scope Z_scope.

(** ** Characters and strings *)

Definition NL : string := String "010"%char EmptyString.
Definition TAB : string := String "009"%char EmptyString.
Definition DQ : string := String "034"%char EmptyString.

(** [str(n)] for a Python int. *)
Definition str_Z (z : Z) : string := NilZero.string_of_int (Z.to_int z).

(** The characters [str.splitlines] treats as line boundaries (those below
    U+0100); a carriage return followed by a line feed is one boundary. *)
Definition is_linebreak (c : ascii) : bool :=
  match nat_of_ascii c with
  | 10%nat | 11%nat | 12%nat | 13%nat | 28%nat | 29%nat | 30%nat | 133%nat => true
  | _ => false
  end.

Definition keep (keepends : bool) (s : string) : string :=
  if keepends then s else EmptyString.

Fixpoint splitlines_from (keepends : bool) (cur : string) (s : string) : list string :=
  match s with
  | EmptyString => match cur with EmptyString => [] | _ => [cur] end
  | String c rest =>
      if Ascii.eqb c "013"%char then
        match rest with
        | String c' rest' =>
            if Ascii.eqb c' "010"%char
            then (cur +:+ keep keepends (String c (String c' EmptyString)))
                   :: splitlines_from keepends EmptyString rest'
            else (cur +:+ keep keepends (String c EmptyString))
                   :: splitlines_from keepends EmptyString rest
        | EmptyString => [cur +:+ keep keepends (String c EmptyString)]
        end
      else if is_linebreak c then
        (cur +:+ keep keepends (String c EmptyString))
          :: splitlines_from keepends EmptyString rest
      else splitlines_from keepends (cur +:+ String c EmptyString) rest
  end.

(** [s.splitlines(keepends)] *)
Definition splitlines (keepends : bool) (s : string) : list string :=
  splitlines_from keepends EmptyString s.

(** [s.replace(a, b)] for one-character [a] and [b]. *)
Fixpoint replace_char (a b : ascii) (s : string) : string :=
  match s with
  | EmptyString => EmptyString
  | String c rest => String (if Ascii.eqb c a then b else c) (replace_char a b rest)
  end.

(** ** Exceptions and the state monad of the module *)

Inductive exn :=
| IndexError | KeyError | TypeError | AttributeError
| ValueError | OverflowError | OSError | SystemExit.

Inductive Res (A : Type) :=
| Ok (a : A)
| Raise (e : exn).
Arguments Ok {A} a.
Arguments Raise {A} e.


Definition M (S A : Type) : Type := S -> Res A * S.

Definition ret {S A} (a : A) : M S A := fun s => (Ok a, s).
Definition raise {S A} (e : exn) : M S A := fun s => (Raise e, s).
Definition bind {S A B} (c : M S A) (k : A -> M S B) : M S B :=
  fun s => match c s with
           | (Ok a, s') => k a s'
           | (Raise e, s') => (Raise e, s')
           end.
Definition gets {S A} (f : S -> A) : M S A := fun s => (Ok (f s), s).
Definition modify {S} (f : S -> S) : M S unit := fun s => (Ok tt, f s).
Definition lift_res {S A} (r : Res A) : M S A := fun s => (r, s).

Declare Scope py_scope.
Delimit Scope py_scope with py.
Notation "x <- c1 ;; c2" := (bind c1 (fun x => c2))
  (at level 100, c1 at next level, right associativity) : py_scope.
Notation "c1 ;; c2" := (bind c1 (fun _ => c2))
  (at level 100, right associativity) : py_scope.

(** A [for] loop whose body threads an accumulator. *)
Fixpoint for_each {S A B} (l : list A) (body : A -> B -> M S B) (acc : B) : M S B :=
  match l with
  | [] => ret acc
  | x :: l' => bind (body x acc) (for_each l' body)
  end.

(** [l.pop(0)] and [l.pop()]: the list that remains, [IndexError] on []. *)
Definition pop_first {A} (l : list A) : Res (list A) :=
  match l with
  | [] => Raise IndexError
  | _ :: l' => Ok l'
  end.

Definition pop_last {A} (l : list A) : Res (list A) :=
  match l with
  | [] => Raise IndexError
  | _ => Ok (removelast l)
  end.

(** ** The value of the variable [out]

    [parse] starts [out] as the string [""], but its message branch
    rebinds it to the list [[]]; from then on [out += s] extends the list
    with the characters of [s]. *)

Inductive pyout :=
| OutStr (s : string)
| OutList (l : list ascii).

(** [out += s] for a string [s]. *)
Definition iadd_str (out : pyout) (s : string) : pyout :=
  match out with
  | OutStr t => OutStr (t +:+ s)
  | OutList l => OutList (l ++ list_ascii_of_string s)
  end.

(** [out += v] where [v] is what a call of [parse] returned: a string
    cannot be extended with a list. *)
Definition iadd (out v : pyout) : Res pyout :=
  match out, v with
  | OutStr t, OutStr s => Ok (OutStr (t +:+ s))
  | OutStr _, OutList _ => Raise TypeError
  | OutList l, OutStr s => Ok (OutList (l ++ list_ascii_of_string s))
  | OutList l, OutList l' => Ok (OutList (l ++ l'))
  end.

(** ** The command-line arguments as [argparse] returns them *)

Record Args := {
  no_header : bool;
  no_comments : bool;
  line_numbers : bool;
  no_show_editor : bool;
  precision : string;
  preamble : option string;
  postamble : option string;
  inches : bool;
  modal : bool;
  axis_modal : bool;
  no_tlo : bool
}.

(** What [parser.parse_args(shlex.split(argstring))] does: it returns the
    namespace, raises an [Exception] ([shlex] on an open quotation), or
    leaves through [SystemExit] ([argparse] on an unknown flag). *)
Inductive ArgOutcome :=
| Parsed (a : Args)
| ArgException
| ArgExit.

(** ** The host: FreeCAD's side of the interface *)

Class Host := {
  (** the numeric values of command parameters (Python floats) *)
  num : Type;
  (** [a == b]; [a != b] is its negation *)
  num_eqb : num -> num -> bool;
  (** the float of an integer literal *)
  num_of_Z : Z -> num;
  (** [Units.Quantity(v, FreeCAD.Units.Length).getValueAs(unit)] *)
  length_as : string -> num -> num;
  (** [Units.Quantity(v, FreeCAD.Units.Velocity).getValueAs(unit)] *)
  velocity_as : string -> num -> num;
  (** [x > 0.0] *)
  gt_zero : num -> bool;
  (** [format(float(x), spec)]: [ValueError] when [spec] is not a format
      specification for a float *)
  format_float : string -> num -> Res string;
  (** [str(int(x))]: [ValueError] for a NaN, [OverflowError] for an
      infinity *)
  str_int : num -> Res string;
  (** [parser.parse_args(shlex.split(argstring))] *)
  parse_args : string -> ArgOutcome;
  (** [FreeCAD.GuiUp] *)
  GuiUp : bool;
  (** [PostUtils.GCodeEditorDialog]: the edited text when the dialog is
      accepted, [None] when it is dismissed *)
  editor_dialog : string -> option string;
  (** [pythonopen(filename, "w")] returns a file; when it does not, it
      raises [OSError] *)
  can_open : string -> bool;
  (** the exceptions of [format] and of [int] *)
  format_float_raises :
    forall spec x e, format_float spec x = Raise e -> e = ValueError;
  str_int_raises :
    forall x e, str_int x = Raise e -> e = ValueError \/ e = OverflowError
}.

(** ** The module-level globals *)

Record Module := {
  OUTPUT_COMMENTS : bool;
  OUTPUT_HEADER : bool;
  OUTPUT_LINE_NUMBERS : bool;
  SHOW_EDITOR : bool;
  MODAL : bool;
  USE_TLO : bool;
  OUTPUT_DOUBLES : bool;
  LINENR : Z;
  (** [str(PRECISION)]: the global holds the int 7, then the string given
      on the command line, or the int 4; only its [str] is ever read *)
  PRECISION : string;
  PREAMBLE : string;
  POSTAMBLE : string;
  UNITS : string;
  UNIT_SPEED_FORMAT : string;
  UNIT_FORMAT : string;
  first_tool_change_skipped : bool;
  (** [str(now)], the time at which the module was imported *)
  now : string
}.

Definition COMMAND_SPACE : string := " ".
Definition SKIP_FIRST_TOOLCHANGE : bool := true.
Definition module_name : string := "wincnc_post".

Definition default_PREAMBLE : string :=
  "G54" +:+ TAB +:+ TAB +:+ "[Using G54 Workspace]" +:+ NL +:+
  "G40" +:+ TAB +:+ TAB +:+ "[Tool Cutter Compensation Off]" +:+ NL +:+
  "G49" +:+ TAB +:+ TAB +:+ "[Tool Length Offset Off]" +:+ NL +:+
  "G90" +:+ TAB +:+ TAB +:+ "[Absolute Mode]" +:+ NL +:+
  "G53 Z0" +:+ TAB +:+ TAB +:+ "[Lift Z to top]" +:+ NL.

Definition default_POSTAMBLE : string :=
  "G53 Z0" +:+ TAB +:+ TAB +:+ "[Rapid Move Z to 0]" +:+ NL +:+
  "M05" +:+ TAB +:+ TAB +:+ "[Turn Spindle Off]" +:+ NL.

Definition PRE_OPERATION : string := "".
Definition POST_OPERATION : string := "".

Definition TAB4 : string := TAB +:+ TAB +:+ TAB +:+ TAB.

Definition PRE_TOOL_CHANGE : string :=
  "G28Z" +:+ TAB4 +:+ "[Go to Machine Z0]" +:+ NL +:+
  "G53Z" +:+ TAB4 +:+ "[Lift Z (Rapid)]" +:+ NL +:+
  "M5" +:+ TAB4 +:+ "[Turn Spindle Off]" +:+ NL +:+
  "G53 X0 Y0".

(** [TOOL_CHANGE_NOTIFICATION.format(tool_num = label)] *)
Definition TOOL_CHANGE_NOTIFICATION (tool_num : string) : string :=
  NL +:+ "G5 T2 M" +:+ DQ +:+ "Please Change Tool to '" +:+ tool_num +:+
  "'. Press OK when done (Keep Dust Boot Off!)." +:+ DQ +:+ NL.

Definition TOOL_CHANGE : string :=
  "G5 T2 M" +:+ DQ +:+ "Press OK to Measure Tool." +:+ DQ +:+ NL +:+
  "L21" +:+ TAB4 +:+ "[Disable Soft Limits]" +:+ NL +:+
  "L210Z" +:+ TAB4 +:+ "[Select Z Alt Low Limits]" +:+ NL +:+
  "G53 Z0" +:+ NL +:+
  "G53 X{TMX}Y{TMY}" +:+ TAB +:+ TAB +:+ "[Move to Tool Measure Switch X/Y Coordinates]" +:+ NL +:+
  "L91 G0 Z{TMD}" +:+ NL +:+
  "L91 G1 Z-9 M28 F20 G31" +:+ TAB +:+ TAB +:+ "[Perform Measurement of Tool]" +:+ NL +:+
  "M37 Z{TM1} H{TP1}" +:+ TAB +:+ TAB +:+ "[Set New Tool Offset]" +:+ NL +:+
  "G53 Z0" +:+ NL +:+
  "L91 G1 Z0 F50" +:+ NL +:+
  "L212" +:+ TAB4 +:+ "[Select Primary Limits for All Axes]" +:+ NL +:+
  "G0" +:+ NL +:+
  "G53 X0 Y0" +:+ NL +:+
  "G5 T2 M" +:+ DQ +:+ "Please Replace Dust Boot. Press OK when done." +:+ DQ +:+ NL +:+
  "G5 T2 M" +:+ DQ +:+ "Continue Job?" +:+ DQ +:+ NL.

(** The globals as the import of the module leaves them. *)
Definition imported (now_ : string) : Module := {|
  OUTPUT_COMMENTS := true;
  OUTPUT_HEADER := true;
  OUTPUT_LINE_NUMBERS := false;
  SHOW_EDITOR := true;
  MODAL := false;
  USE_TLO := true;
  OUTPUT_DOUBLES := true;
  LINENR := 100;
  PRECISION := "7";
  PREAMBLE := default_PREAMBLE;
  POSTAMBLE := default_POSTAMBLE;
  UNITS := "G20";
  UNIT_SPEED_FORMAT := "in/min";
  UNIT_FORMAT := "in";
  first_tool_change_skipped := false;
  now := now_
|}.

Definition set_LINENR (n : Z) (m : Module) : Module := {|
  OUTPUT_COMMENTS := OUTPUT_COMMENTS m;
  OUTPUT_HEADER := OUTPUT_HEADER m;
  OUTPUT_LINE_NUMBERS := OUTPUT_LINE_NUMBERS m;
  SHOW_EDITOR := SHOW_EDITOR m;
  MODAL := MODAL m;
  USE_TLO := USE_TLO m;
  OUTPUT_DOUBLES := OUTPUT_DOUBLES m;
  LINENR := n;
  PRECISION := PRECISION m;
  PREAMBLE := PREAMBLE m;
  POSTAMBLE := POSTAMBLE m;
  UNITS := UNITS m;
  UNIT_SPEED_FORMAT := UNIT_SPEED_FORMAT m;
  UNIT_FORMAT := UNIT_FORMAT m;
  first_tool_change_skipped := first_tool_change_skipped m;
  now := now m
|}.

Definition set_first_tool_change_skipped (b : bool) (m : Module) : Module := {|
  OUTPUT_COMMENTS := OUTPUT_COMMENTS m;
  OUTPUT_HEADER := OUTPUT_HEADER m;
  OUTPUT_LINE_NUMBERS := OUTPUT_LINE_NUMBERS m;
  SHOW_EDITOR := SHOW_EDITOR m;
  MODAL := MODAL m;
  USE_TLO := USE_TLO m;
  OUTPUT_DOUBLES := OUTPUT_DOUBLES m;
  LINENR := LINENR m;
  PRECISION := PRECISION m;
  PREAMBLE := PREAMBLE m;
  POSTAMBLE := POSTAMBLE m;
  UNITS := UNITS m;
  UNIT_SPEED_FORMAT := UNIT_SPEED_FORMAT m;
  UNIT_FORMAT := UNIT_FORMAT m;
  first_tool_change_skipped := b;
  now := now m
|}.

(** The process around the module: what [print] wrote and the files
    [export] wrote. *)
Record World := {
  module : Module;
  stdout : list string;
  files : gmap string string
}.

Definition print (line : string) (w : World) : World :=
  {| module := module w; stdout := stdout w ++ [line]; files := files w |}.

Definition with_module (m : Module) (w : World) : World :=
  {| module := m; stdout := stdout w; files := files w |}.

Definition write_file (filename text : string) (w : World) : World :=
  {| module := module w; stdout := stdout w; files := <[filename := text]> (files w) |}.

(** ** linenumber *)

Definition linenumber : M Module string :=
  fun m =>
    if OUTPUT_LINE_NUMBERS m
    then let m' := set_LINENR (LINENR m + 10) m in
         (Ok ("N" +:+ str_Z (LINENR m') +:+ " "), m')
    else (Ok "", m).

(** [for line in lines: acc += linenumber() + line + suffix], where [add]
    is the [+=] of the accumulator. *)
Definition numbered_lines {B} (add : B -> string -> B) (lines : list string)
    (suffix : string) (acc : B) : M Module B :=
  for_each lines
    (fun line acc => (n <- linenumber ;; ret (add acc (n +:+ line +:+ suffix)))%py)
    acc.

(** ** The data model

    The types of the documents are over the type of the numeric values;
    the host fixes it. *)

(** [Path.Command]: a name and a dictionary from parameter letters to
    values. *)
Record Command (num : Type) := {
  Name : string;
  Parameters : gmap string num
}.
Arguments Name {num} c.
Arguments Parameters {num} c.

(** [obj.Base], as far as [export] looks into it. *)
Record BaseObj := {
  base_Active : option bool;
  base_CoolantMode : option string
}.

Local Set Warnings "-register-all".

(** A document object.  An attribute the object may lack ([hasattr]) is an
    option; [Tool] stands for [obj.Tool.Label]. *)
Inductive PathObj (num : Type) := mkPathObj {
  obj_Name : string;
  Label : string;
  Active : option bool;
  Base : option BaseObj;
  CoolantMode : option string;
  Group : option (list (PathObj num));
  Path : option (list (Command num));
  Tool : option string
}.
Arguments mkPathObj {num} _ _ _ _ _ _ _ _.
Arguments obj_Name {num} p.
Arguments Label {num} p.
Arguments Active {num} p.
Arguments Base {num} p.
Arguments CoolantMode {num} p.
Arguments Group {num} p.
Arguments Path {num} p.
Arguments Tool {num} p.

(** What one call of [parse] keeps in local variables while it walks the
    commands of a leaf. *)
Record Loop (num : Type) := {
  out : pyout;
  lastcommand : option string;
  currLocation : gmap string num
}.
Arguments out {num} l.
Arguments lastcommand {num} l.
Arguments currLocation {num} l.

(** ** The emitter, over a host *)

Section Emitter.
Context `{Host}.

(** the order of parameters *)
Definition params : list string :=
  ["X"; "Y"; "Z"; "A"; "B"; "C"; "I"; "J"; "S"; "T"; "Q"; "R"; "F"; "L"; "H"; "D"; "P"].

(** [firstmove.Parameters] *)
Definition firstmove_Parameters : gmap string num :=
  <["X" := num_of_Z (-1)]> (<["Y" := num_of_Z (-1)]> (<["Z" := num_of_Z (-1)]>
    (<["F" := num_of_Z 0]> ∅))).

(** The locals of [parse] before its first command: [currLocation] is
    the empty dictionary updated with the first move. *)
Definition initial_loop : Loop num := {|
  out := OutStr "";
  lastcommand := None;
  currLocation := firstmove_Parameters ∪ ∅
|}.

Definition precision_string (m : Module) : string :=
  "." +:+ PRECISION m +:+ "f".

Definition is_rapid (name : string) : bool :=
  String.eqb name "G0" || String.eqb name "G00".

(** [outstring.append(param + text)], where computing [text] may raise. *)
Definition append_token (outstring : list string) (param : string) (text : Res string)
  : Res (list string) :=
  match text with
  | Ok s => Ok (outstring ++ [param +:+ s])
  | Raise e => Raise e
  end.

(** The [elif] chain of the parameter loop: the integer letters, then the
    lengths. *)
Definition emit_other (m : Module) (cur : gmap string num) (param : string) (v : num)
    (outstring : list string) : Res (list string) :=
  if String.eqb param "T" then append_token outstring param (str_int v)
  else if String.eqb param "H" then append_token outstring param (str_int v)
  else if String.eqb param "D" then append_token outstring param (str_int v)
  else if String.eqb param "S" then append_token outstring param (str_int v)
  else
    if negb (OUTPUT_DOUBLES m)
       && match cur !! param with
          | Some old => num_eqb old v
          | None => false
          end
    then Ok outstring
    else append_token outstring param
           (format_float (precision_string m) (length_as (UNIT_FORMAT m) v)).

(** The body of [for param in params]. *)
Definition emit_param (m : Module) (cur : gmap string num) (c : Command num)
    (param : string) (outstring : list string) : Res (list string) :=
  match Parameters c !! param with
  | None => Ok outstring
  | Some v =>
      if String.eqb param "F" then
        match cur !! param with
        | None => Raise KeyError
        | Some old =>
            if negb (num_eqb old v) || OUTPUT_DOUBLES m then
              if negb (is_rapid (Name c)) then
                let speed := velocity_as (UNIT_SPEED_FORMAT m) v in
                if gt_zero speed
                then append_token outstring param (format_float (precision_string m) speed)
                else Ok outstring
              else Ok outstring
            else emit_other m cur param v outstring
        end
      else emit_other m cur param v outstring
  end.

Fixpoint emit_params (m : Module) (cur : gmap string num) (c : Command num)
    (ps : list string) (outstring : list string) : Res (list string) :=
  match ps with
  | [] => Ok outstring
  | p :: ps' =>
      match emit_param m cur c p outstring with
      | Ok outstring' => emit_params m cur c ps' outstring'
      | Raise e => Raise e
      end
  end.

(** [for w in outstring: out += w + COMMAND_SPACE] *)
Definition add_words (outstring : list string) (out : pyout) : pyout :=
  fold_left (fun out w => iadd_str out (w +:+ COMMAND_SPACE)) outstring out.

(** The end of the loop body: the line, if a token is left. *)
Definition emit_line (outstring : list string) (st : Loop num) : M Module (Loop num) :=
  match outstring with
  | [] => ret st
  | _ =>
      (outstring <- (fun m => if OUTPUT_LINE_NUMBERS m
                              then bind linenumber (fun n => ret (n :: outstring)) m
                              else ret outstring m) ;;
       ret {| out := iadd_str (add_words outstring (out st)) NL;
              lastcommand := lastcommand st;
              currLocation := currLocation st |})%py
  end.

(** The tool-change branch, entered when the command is [M6]. *)
Definition tool_change (pathobj : PathObj num) (st : Loop num) : M Module (Loop num) :=
  fun m =>
    if SKIP_FIRST_TOOLCHANGE && negb (first_tool_change_skipped m)
    then (Ok st, set_first_tool_change_skipped true m)
    else
      (o1 <- numbered_lines iadd_str (splitlines true PRE_TOOL_CHANGE) "" (out st) ;;
       label <- match Tool pathobj with
                | Some l => ret l
                | None => raise AttributeError
                end ;;
       let o2 := iadd_str o1 (TOOL_CHANGE_NOTIFICATION label) in
       o3 <- numbered_lines iadd_str (splitlines true TOOL_CHANGE) "" o2 ;;
       ret {| out := o3;
              lastcommand := lastcommand st;
              currLocation := currLocation st |})%py m.

(** The message branch and the line that follows it. *)
Definition message_and_line (command : string) (outstring : list string) (st : Loop num)
  : M Module (Loop num) :=
  if String.eqb command "message" then
    fun m =>
      if negb (OUTPUT_COMMENTS m)
      then emit_line outstring
             {| out := OutList [];
                lastcommand := lastcommand st;
                currLocation := currLocation st |} m
      else match pop_first outstring with
           | Ok outstring' => emit_line outstring' st m
           | Raise e => (Raise e, m)
           end
  else emit_line outstring st.

(** From the parameter loop to the end of the body. *)
Definition serialize (pathobj : PathObj num) (c : Command num) (outstring : list string)
    (st : Loop num) : M Module (Loop num) :=
  fun m =>
    match emit_params m (currLocation st) c params outstring with
    | Raise e => (Raise e, m)
    | Ok outstring =>
        let st' := {| out := out st;
                      lastcommand := Some (Name c);
                      currLocation := Parameters c ∪ currLocation st |} in
        if String.eqb (Name c) "M6"
        then tool_change pathobj st' m
        else message_and_line (Name c) outstring st' m
    end.

(** The body of [for c in pathobj.Path.Commands]; a [continue] returns the
    locals as they are at that point. *)
Definition parse_command (pathobj : PathObj num) (c : Command num) (st : Loop num)
  : M Module (Loop num) :=
  fun m =>
    let command := Name c in
    let outstring := [command] in
    match (if MODAL m && bool_decide (lastcommand st = Some command)
           then pop_first outstring else Ok outstring) with
    | Raise e => (Raise e, m)
    | Ok outstring =>
        match String.get 0 (Name c) with
        | None => (Raise IndexError, m)
        | Some c0 =>
            if Ascii.eqb c0 "("%char then
              if negb (OUTPUT_COMMENTS m) then (Ok st, m)
              else
                match pop_last outstring with
                | Raise e => (Raise e, m)
                | Ok outstring =>
                    let outstring :=
                      outstring ++ [replace_char ")" "]" (replace_char "(" "[" command)] in
                    if String.eqb (Name c) "G99" then (Ok st, m)
                    else serialize pathobj c outstring st m
                end
            else
              if String.eqb (Name c) "G99" then (Ok st, m)
              else serialize pathobj c outstring st m
        end
    end.

(** [for p in pathobj.Group: out += parse(p)], for a given [parse]. *)
Section Members.
Variable parse_one : PathObj num -> M Module pyout.

Fixpoint parse_group (ps : list (PathObj num)) (out : pyout) : M Module pyout :=
  match ps with
  | [] => ret out
  | p :: ps' =>
      (v <- parse_one p ;;
       out' <- lift_res (iadd out v) ;;
       parse_group ps' out')%py
  end.
End Members.

(** [parse(pathobj)] *)
Fixpoint parse (pathobj : PathObj num) : M Module pyout :=
  match Group pathobj with
  | Some group => parse_group parse group (OutStr "")
  | None =>
      match Path pathobj with
      | None => ret (OutStr "")
      | Some commands =>
          (st <- for_each commands (parse_command pathobj) initial_loop ;;
           ret (out st))%py
      end
  end.

(** ** processArguments and export *)

(** The assignments [processArguments] makes to the globals once the
    arguments are parsed. *)
Definition apply_args (args : Args) (m : Module) : Module := {|
  OUTPUT_COMMENTS := if no_comments args then false else OUTPUT_COMMENTS m;
  OUTPUT_HEADER := if no_header args then false else OUTPUT_HEADER m;
  OUTPUT_LINE_NUMBERS := if line_numbers args then true else OUTPUT_LINE_NUMBERS m;
  SHOW_EDITOR := if no_show_editor args then false else SHOW_EDITOR m;
  MODAL := if modal args then true else MODAL m;
  USE_TLO := if no_tlo args then false else USE_TLO m;
  OUTPUT_DOUBLES := if axis_modal args then false else OUTPUT_DOUBLES m;
  LINENR := LINENR m;
  PRECISION := if inches args then "4" else precision args;
  PREAMBLE := match preamble args with Some p => p | None => PREAMBLE m end;
  POSTAMBLE := match postamble args with Some p => p | None => POSTAMBLE m end;
  UNITS := if inches args then "G20" else UNITS m;
  UNIT_SPEED_FORMAT := if inches args then "in/min" else UNIT_SPEED_FORMAT m;
  UNIT_FORMAT := if inches args then "in" else UNIT_FORMAT m;
  first_tool_change_skipped := first_tool_change_skipped m;
  now := now m
|}.

Definition processArguments (argstring : string) (w : World) : Res bool * World :=
  match parse_args argstring with
  | ArgExit => (Raise SystemExit, w)
  | ArgException => (Ok false, w)
  | Parsed args =>
      let m := apply_args args (module w) in
      let w := print ("Show editor = " +:+ (if SHOW_EDITOR m then "1" else "0")) w in
      let w := if axis_modal args then print "here" w else w in
      (Ok true, with_module m w)
  end.

(** [gcode += linenumber() + text] *)
Definition add_numbered (text : string) (gcode : string) : M Module string :=
  (n <- linenumber ;; ret (gcode +:+ n +:+ text))%py.

Definition when {S A} (b : bool) (c : A -> M S A) (a : A) : M S A :=
  if b then c a else ret a.

(** Skip inactive operations *)
Definition inactive (obj : PathObj num) : bool :=
  match Active obj with
  | Some false => true
  | _ =>
      match Base obj with
      | Some b => match base_Active b with Some false => true | _ => false end
      | None => false
      end
  end.

(** get coolant mode *)
Definition coolant_mode (obj : PathObj num) : string :=
  match CoolantMode obj with
  | Some mode => mode
  | None =>
      match Base obj with
      | Some b => match base_CoolantMode b with Some mode => mode | None => "None" end
      | None => "None"
      end
  end.

(** The body of the second [for obj in objectslist]. *)
Definition export_object (obj : PathObj num) (gcode : string) : M Module string :=
  if inactive obj then ret gcode
  else
    let coolantMode := coolant_mode obj in
    (gcode <- (fun m => when (OUTPUT_COMMENTS m)
                 (add_numbered ("[Operation: " +:+ Label obj +:+ " (" +:+
                                UNIT_SPEED_FORMAT m +:+ ")]" +:+ NL)) gcode m) ;;
     gcode <- numbered_lines String.append (splitlines true PRE_OPERATION) NL gcode ;;
     gcode <- (fun m => when (OUTPUT_COMMENTS m && negb (String.eqb coolantMode "None"))
                 (add_numbered ("[Coolant On:" +:+ coolantMode +:+ "]" +:+ NL)) gcode m) ;;
     gcode <- when (String.eqb coolantMode "Flood") (add_numbered ("M8" +:+ NL)) gcode ;;
     gcode <- when (String.eqb coolantMode "Mist") (add_numbered ("M7" +:+ NL)) gcode ;;
     v <- parse obj ;;
     gcode <- lift_res (match iadd (OutStr gcode) v with
                        | Ok (OutStr g) => Ok g
                        | Ok (OutList _) => Raise TypeError
                        | Raise e => Raise e
                        end) ;;
     gcode <- numbered_lines String.append (splitlines true POST_OPERATION) "" gcode ;;
     let gcode := gcode +:+ NL in
     if negb (String.eqb coolantMode "None") then
       (gcode <- (fun m => when (OUTPUT_COMMENTS m)
                    (add_numbered ("[Coolant Off:" +:+ coolantMode +:+ "]" +:+ NL)) gcode m) ;;
        add_numbered ("M9" +:+ NL) gcode)
     else ret gcode)%py.

(** [export] from [gcode = ""] to the end of the postamble. *)
Definition export_gcode (objectslist : list (PathObj num)) : M Module string :=
  (let gcode := "" in
   gcode <- (fun m => when (OUTPUT_HEADER m)
               (fun gcode =>
                  gcode <- add_numbered ("[Exported by FreeCAD]" +:+ NL) gcode ;;
                  gcode <- add_numbered ("[Post Processor: " +:+ module_name +:+ "]" +:+ NL) gcode ;;
                  add_numbered ("[Output Time:" +:+ now m +:+ "]" +:+ NL +:+ NL) gcode)
               gcode m) ;;
   gcode <- (fun m => when (OUTPUT_COMMENTS m)
               (add_numbered ("[Begin Preamble]" +:+ NL)) gcode m) ;;
   gcode <- (fun m => numbered_lines String.append (splitlines false (PREAMBLE m)) NL gcode m) ;;
   gcode <- (fun m => add_numbered (UNITS m +:+ TAB +:+ TAB +:+ "[Units: " +:+
                                    UNIT_FORMAT m +:+ "]" +:+ NL +:+ NL) gcode m) ;;
   gcode <- for_each objectslist export_object gcode ;;
   gcode <- (fun m => ret (if OUTPUT_COMMENTS m
                           then gcode +:+ "[Postamble]" +:+ NL else gcode) m) ;;
   (fun m => numbered_lines String.append (splitlines true (POSTAMBLE m)) "" gcode m))%py.

(** The editor step: the text that is finally written, and whether the
    100 kb message is printed. *)
Definition review (m : Module) (gcode : string) : string * bool :=
  if GuiUp && SHOW_EDITOR m then
    if 100000 <? Z.of_nat (String.length gcode) then (gcode, true)
    else match editor_dialog gcode with
         | Some edited => (edited, false)
         | None => (gcode, false)
         end
  else (gcode, false).

(** [not hasattr(obj, "Path")] *)
Definition not_a_path (obj : PathObj num) : bool :=
  negb (bool_decide (is_Some (Path obj))).

(** ["the object " + obj.Name + " is not a path. ..."] *)
Definition not_a_path_message (obj : PathObj num) : string :=
  "the object " +:+ obj_Name obj +:+ " is not a path. Please select only path and Compounds.".

(** [export(objectslist, filename, argstring)]: [Ok None] is Python's
    [return None]. *)
Definition export (objectslist : list (PathObj num)) (filename argstring : string)
    (w : World) : Res (option string) * World :=
  match processArguments argstring w with
  | (Raise e, w) => (Raise e, w)
  | (Ok false, w) => (Ok None, w)
  | (Ok true, w) =>
      match List.find not_a_path objectslist with
      | Some obj =>
          (Ok None, print (not_a_path_message obj) w)
      | None =>
          let w := print "postprocessing..." w in
          match export_gcode objectslist (module w) with
          | (Raise e, m) => (Raise e, with_module m w)
          | (Ok gcode, m) =>
              let w := with_module m w in
              let '(final, skipped) := review m gcode in
              let w := if skipped
                       then print "Skipping editor since output is greater than 100kb" w
                       else w in
              let w := print "done postprocessing." w in
              if negb (String.eqb filename "-") then
                if can_open filename
                then (Ok (Some final), write_file filename final w)
                else (Raise OSError, w)
              else (Ok (Some final), w)
          end
      end
  end.

(** ** Notions the properties are stated with *)

(** [c] takes the globals from [m] to some [m'] with [R m m']. *)
Definition preserves {A} (R : Module -> Module -> Prop) (c : M Module A) : Prop :=
  forall m, R m (snd (c m)).

(** The counter has not gone back and the flag has not been cleared. *)
Definition advanced (a b : Module) : Prop :=
  LINENR a <= LINENR b /\
  (first_tool_change_skipped a = true -> first_tool_change_skipped b = true).

(** The settings: the globals with the two run counters blanked. *)
Definition config (m : Module) : Module :=
  set_LINENR 0 (set_first_tool_change_skipped false m).

(** The same object with every command named G99 removed from every path
    below it. *)
Fixpoint without_G99 (o : PathObj num) : PathObj num :=
  match o with
  | mkPathObj n l a b c g p t =>
      mkPathObj n l a b c
        (option_map (List.map without_G99) g)
        (option_map (List.filter (fun c => negb (String.eqb (Name c) "G99"))) p)
        t
  end.

(** One list of tokens after another; the first exception wins. *)
Definition tokens_then (a b : Res (list string)) : Res (list string) :=
  match a with
  | Ok x => match b with
            | Ok y => Ok (x ++ y)
            | Raise e => Raise e
            end
  | Raise e => Raise e
  end.

(** The tokens the letters of [ps] contribute, letter by letter. *)
Fixpoint gather (tokens : string -> Res (list string)) (ps : list string)
  : Res (list string) :=
  match ps with
  | [] => Ok []
  | p :: ps' => tokens_then (tokens p) (gather tokens ps')
  end.

(** The feed rule in the words of the specification: nothing for a rapid
    move; otherwise the converted, formatted value when it is strictly
    positive and the feed differs from the tracked one or duplicate
    output is on. *)
Definition feed_tokens (m : Module) (tracked : num) (c : Command num) (v : num)
  : Res (list string) :=
  if is_rapid (Name c) then Ok []
  else if gt_zero (velocity_as (UNIT_SPEED_FORMAT m) v)
          && (negb (num_eqb tracked v) || OUTPUT_DOUBLES m)
       then append_token [] "F"
              (format_float (precision_string m) (velocity_as (UNIT_SPEED_FORMAT m) v))
       else Ok [].

(** The letters written as lengths: every parameter letter but the feed
    and the four integer letters. *)
Definition length_letter (param : string) : bool :=
  negb (String.eqb param "F" || String.eqb param "T" || String.eqb param "H"
        || String.eqb param "D" || String.eqb param "S").

(** The token of a length letter: the value converted to the length unit
    and formatted at the configured precision. *)
Definition length_token (m : Module) (param : string) (v : num) : Res (list string) :=
  append_token [] param (format_float (precision_string m) (length_as (UNIT_FORMAT m) v)).

(** The parameter letters on either side of the feed. *)
Definition params_before_F : list string :=
  ["X"; "Y"; "Z"; "A"; "B"; "C"; "I"; "J"; "S"; "T"; "Q"; "R"].
Definition params_after_F : list string := ["L"; "H"; "D"; "P"].

(** The commands the loop leaves with [continue] before it touches its
    locals: a comment while comments are off, and [G99]. *)
Definition dropped_early (m : Module) (c : Command num) : bool :=
  match String.get 0 (Name c) with
  | Some c0 => (Ascii.eqb c0 "("%char && negb (OUTPUT_COMMENTS m))
               || String.eqb (Name c) "G99"
  | None => false
  end.

(** The locals once a command has been recorded. *)
Definition recorded (c : Command num) (st : Loop num) : Loop num :=
  {| out := out st;
     lastcommand := Some (Name c);
     currLocation := Parameters c ∪ currLocation st |}.

(** From [a] to [b] the settings are the same and the counter has moved
    by a whole number of steps of ten, by none if line numbering is off. *)
Definition counted (a b : Module) : Prop :=
  config b = config a /\
  exists k, 0 <= k /\ LINENR b = LINENR a + 10 * k /\
            (OUTPUT_LINE_NUMBERS a = false -> k = 0).

(** A command of the ordinary kind: its name is not empty, does not open
    a comment, and is none of [G99], [M6] and [message]. *)
Definition ordinary (c : Command num) : bool :=
  match String.get 0 (Name c) with
  | Some c0 =>
      negb (Ascii.eqb c0 "("%char)
      && negb (String.eqb (Name c) "G99")
      && negb (String.eqb (Name c) "M6")
      && negb (String.eqb (Name c) "message")
  | None => false
  end.

(** The name token as modal suppression leaves it. *)
Definition name_tokens (m : Module) (st : Loop num) (c : Command num) : list string :=
  if MODAL m && bool_decide (lastcommand st = Some (Name c)) then [] else [Name c].

(** The letters written as truncated integers. *)
Definition integer_letter (param : string) : bool :=
  String.eqb param "T" || String.eqb param "H" || String.eqb param "D"
  || String.eqb param "S".

(** The tokens of a line, each followed by the separator. *)
Fixpoint words (outstring : list string) : string :=
  match outstring with
  | [] => ""
  | w :: ws => w +:+ COMMAND_SPACE +:+ words ws
  end.





(** [out] is still a string. *)
Definition is_str (o : pyout) : Prop := exists t, o = OutStr t.

(** Locals with [out] a string and a feed on record. *)
Definition loop_ok (st : Loop num) : Prop :=
  is_str (out st) /\ is_Some (currLocation st !! "F").


(** The lines of a block, each followed by [suffix]. *)
Fixpoint join_lines (suffix : string) (lines : list string) : string :=
  match lines with
  | [] => ""
  | l :: ls => l +:+ suffix +:+ join_lines suffix ls
  end.

(** Without line numbers: what [export] writes before the first
    operation and after the last. *)
Definition head_text (m : Module) : string :=
  (if OUTPUT_HEADER m
   then "[Exported by FreeCAD]" +:+ NL +:+
        "[Post Processor: " +:+ module_name +:+ "]" +:+ NL +:+
        "[Output Time:" +:+ now m +:+ "]" +:+ NL +:+ NL
   else "") +:+
  (if OUTPUT_COMMENTS m then "[Begin Preamble]" +:+ NL else "") +:+
  join_lines NL (splitlines false (PREAMBLE m)) +:+
  UNITS m +:+ TAB +:+ TAB +:+ "[Units: " +:+ UNIT_FORMAT m +:+ "]" +:+ NL +:+ NL.

Definition tail_text (m : Module) : string :=
  (if OUTPUT_COMMENTS m then "[Postamble]" +:+ NL else "") +:+
  join_lines "" (splitlines true (POSTAMBLE m)).

(** Without line numbers: what [export] writes before and after the
    commands of one operation. *)
Definition opening (m : Module) (obj : PathObj num) : string :=
  (if OUTPUT_COMMENTS m
   then "[Operation: " +:+ Label obj +:+ " (" +:+ UNIT_SPEED_FORMAT m +:+ ")]" +:+ NL
   else "") +:+
  (if OUTPUT_COMMENTS m && negb (String.eqb (coolant_mode obj) "None")
   then "[Coolant On:" +:+ coolant_mode obj +:+ "]" +:+ NL else "") +:+
  (if String.eqb (coolant_mode obj) "Flood" then "M8" +:+ NL else "") +:+
  (if String.eqb (coolant_mode obj) "Mist" then "M7" +:+ NL else "").

Definition closing (m : Module) (obj : PathObj num) : string :=
  if negb (String.eqb (coolant_mode obj) "None")
  then (if OUTPUT_COMMENTS m
        then "[Coolant Off:" +:+ coolant_mode obj +:+ "]" +:+ NL else "")
       +:+ "M9" +:+ NL
  else "".

(** The command is a comment: its name begins with ["("]. *)
Definition is_comment (c : Command num) : bool :=
  match String.get 0 (Name c) with
  | Some c0 => Ascii.eqb c0 "("%char
  | None => false
  end.

(** The same object with every comment removed from every path below
    it. *)
Fixpoint without_comments (o : PathObj num) : PathObj num :=
  match o with
  | mkPathObj n l a b c g p t =>
      mkPathObj n l a b c
        (option_map (List.map without_comments) g)
        (option_map (List.filter (fun c => negb (is_comment c))) p)
        t
  end.

(** A comment with the delimiters of the dialect. *)
Definition bracketed (name : string) : string :=
  replace_char ")" "]" (replace_char "(" "[" name).

End Emitter.

(** ** A host to run the emitter on

    Parameter values are binary64 floats, as in Python, in FreeCAD's
    internal units (millimetres, millimetres per second); a quantity read
    in a unit is the value divided by the unit.  [format] writes the exact
    value of the float rounded to the requested number of decimals, ties
    to even, and [int] truncates it.  [shlex.split] is the POSIX lexer
    (blanks, the two quotations, the backslash) and [argparse] the parser
    of the module's eleven options as CPython 3.11 runs it: option strings
    may be abbreviated, a value comes after [=] or as the next word. *)

Module TestHost.

Definition float := PrimFloat.float.

(** The float nearest to an integer below 2^63 in magnitude. *)
Definition float_of_Z (z : Z) : float :=
  if z <? 0 then PrimFloat.opp (PrimFloat.of_uint63 (Uint63.of_Z (- z)))
  else PrimFloat.of_uint63 (Uint63.of_Z z).

(** [a / b] in floats, such as [254 / 10] for 25.4. *)
Definition ratio (a b : Z) : float := PrimFloat.div (float_of_Z a) (float_of_Z b).

Definition inch : float := ratio 254 10.

Definition to_inches (unit : string) (v : float) : float :=
  if String.eqb unit "in" then PrimFloat.div v inch else v.

Definition to_speed (unit : string) (v : float) : float :=
  if String.eqb unit "in/min" then PrimFloat.div v (PrimFloat.div inch (float_of_Z 60))
  else if String.eqb unit "mm/min" then PrimFloat.div v (ratio 1 60)
  else v.

Definition positive (x : float) : bool := PrimFloat.ltb (float_of_Z 0) x.

Definition is_digit (c : ascii) : bool :=
  (48 <=? nat_of_ascii c)%nat && (nat_of_ascii c <=? 57)%nat.

Fixpoint all_digits (s : string) : bool :=
  match s with
  | EmptyString => true
  | String c rest => is_digit c && all_digits rest
  end.

(** The precision of a format specification [.<digits>f]; anything else
    is not a specification, nor is a precision beyond that of a C int. *)
Definition spec_digits (spec : string) : option Z :=
  match spec with
  | String "."%char rest =>
      let n := String.length rest in
      let digits := String.substring 0 (n - 1) rest in
      if String.eqb (String.substring (n - 1) 1 rest) "f"
         && negb (String.eqb digits "") && all_digits digits
      then match NilZero.uint_of_string digits with
           | Some d => if Z.of_uint d <=? 2147483647 then Some (Z.of_uint d) else None
           | None => None
           end
      else None
  | _ => None
  end.

Fixpoint zeros (n : nat) : string :=
  match n with O => "" | S n' => "0" +:+ zeros n' end.

Definition pad_left (width : nat) (s : string) : string :=
  zeros (width - String.length s) +:+ s.

(** [num / den], not negative, with [digits] decimals, ties to even. *)
Definition format_fixed (digits : Z) (num den : Z) : string :=
  let scale := 10 ^ digits in
  let twice := 2 * num * scale + den in
  let up := twice / (2 * den) in
  let r := if (twice mod (2 * den) =? 0) && Z.odd up then up - 1 else up in
  if digits =? 0 then str_Z r
  else str_Z (r / scale) +:+ "." +:+ pad_left (Z.to_nat digits) (str_Z (r mod scale)).

Definition minus (negative : bool) : string := if negative then "-" else "".

Definition fixed (spec : string) (x : float) : Res string :=
  match spec_digits spec with
  | None => Raise ValueError
  | Some d =>
      Ok match FloatOps.Prim2SF x with
         | SpecFloat.S754_nan => "nan"
         | SpecFloat.S754_infinity s => minus s +:+ "inf"
         | SpecFloat.S754_zero s => minus s +:+ format_fixed d 0 1
         | SpecFloat.S754_finite s mant e =>
             minus s +:+
             (if 0 <=? e then format_fixed d (Zpos mant * 2 ^ e) 1
              else format_fixed d (Zpos mant) (2 ^ (- e)))
         end
  end.

Definition int_text (x : float) : Res string :=
  match FloatOps.Prim2SF x with
  | SpecFloat.S754_nan => Raise ValueError
  | SpecFloat.S754_infinity _ => Raise OverflowError
  | SpecFloat.S754_zero _ => Ok "0"
  | SpecFloat.S754_finite s mant e =>
      let q := if 0 <=? e then Zpos mant * 2 ^ e else Zpos mant / 2 ^ (- e) in
      Ok (str_Z (if s then - q else q))
  end.

(** *** shlex.split *)

Inductive lexing := Between | Word | Single | Double | EscapeWord | EscapeDouble.

Definition is_space (c : ascii) : bool :=
  Ascii.eqb c " "%char || Ascii.eqb c "009"%char || Ascii.eqb c "010"%char
  || Ascii.eqb c "013"%char.

Definition snoc (s : string) (c : ascii) : string := s +:+ String c EmptyString.

(** The words of [s]; [None] is the [ValueError] of [shlex] (no closing
    quotation, or nothing after a backslash). *)
Fixpoint lex (st : lexing) (cur : string) (s : string) : option (list string) :=
  match s with
  | EmptyString =>
      match st with
      | Between => Some []
      | Word => Some [cur]
      | _ => None
      end
  | String c rest =>
      match st with
      | Between =>
          if is_space c then lex Between EmptyString rest
          else if Ascii.eqb c "\"%char then lex EscapeWord EmptyString rest
          else if Ascii.eqb c "'"%char then lex Single EmptyString rest
          else if Ascii.eqb c "034"%char then lex Double EmptyString rest
          else lex Word (String c EmptyString) rest
      | Word =>
          if is_space c then option_map (cons cur) (lex Between EmptyString rest)
          else if Ascii.eqb c "\"%char then lex EscapeWord cur rest
          else if Ascii.eqb c "'"%char then lex Single cur rest
          else if Ascii.eqb c "034"%char then lex Double cur rest
          else lex Word (snoc cur c) rest
      | Single =>
          if Ascii.eqb c "'"%char then lex Word cur rest
          else lex Single (snoc cur c) rest
      | Double =>
          if Ascii.eqb c "034"%char then lex Word cur rest
          else if Ascii.eqb c "\"%char then lex EscapeDouble cur rest
          else lex Double (snoc cur c) rest
      | EscapeWord => lex Word (snoc cur c) rest
      | EscapeDouble =>
          if Ascii.eqb c "\"%char || Ascii.eqb c "034"%char
          then lex Double (snoc cur c) rest
          else lex Double (snoc (snoc cur "\"%char) c) rest
      end
  end.

(** *** argparse, for the parser of the module *)

Definition switches : list string :=
  ["--no-header"; "--no-comments"; "--line-numbers"; "--no-show-editor"; "--inches";
   "--modal"; "--axis-modal"; "--no-tlo"].

Definition option_strings : list string :=
  ["--no-header"; "--no-comments"; "--line-numbers"; "--no-show-editor"; "--precision";
   "--preamble"; "--postamble"; "--inches"; "--modal"; "--axis-modal"; "--no-tlo"].

Definition has (x : string) (l : list string) : bool := existsb (String.eqb x) l.

(** The option an option string stands for: itself, or the only option
    it abbreviates. *)
Definition resolve (name : string) : option string :=
  if has name option_strings then Some name
  else match List.filter (String.prefix name) option_strings with
       | [full] => Some full
       | _ => None
       end.

(** [name=value], split at the first [=]. *)
Fixpoint split_eq (cur : string) (s : string) : string * option string :=
  match s with
  | EmptyString => (cur, None)
  | String c rest =>
      if Ascii.eqb c "="%char then (cur, Some rest) else split_eq (snoc cur c) rest
  end.

Fixpoint contains (c : ascii) (s : string) : bool :=
  match s with
  | EmptyString => false
  | String c' rest => Ascii.eqb c c' || contains c rest
  end.

Fixpoint drop_digits (s : string) : string :=
  match s with
  | String c rest => if is_digit c then drop_digits rest else s
  | EmptyString => s
  end.

(** [-<digits>] or [-<digits>.<digits>]: a negative number *)
Definition negative_number (tok : string) : bool :=
  match tok with
  | String "-"%char rest =>
      match drop_digits rest with
      | EmptyString => negb (String.eqb rest "")
      | String "."%char frac => negb (String.eqb frac "") && all_digits frac
      | _ => false
      end
  | _ => false
  end.

(** A word read as an option rather than as the value of one. *)
Definition option_like (tok : string) : bool :=
  match tok with
  | String "-"%char (String _ _) => negb (negative_number tok) && negb (contains " " tok)
  | _ => false
  end.

Definition defaults : Args := {|
  no_header := false;
  no_comments := false;
  line_numbers := false;
  no_show_editor := false;
  precision := "3";
  preamble := None;
  postamble := None;
  inches := false;
  modal := false;
  axis_modal := false;
  no_tlo := false
|}.

(** The action of the option [name], with its value if it takes one. *)
Definition store (name : string) (value : string) (a : Args) : Args := {|
  no_header := no_header a || String.eqb name "--no-header";
  no_comments := no_comments a || String.eqb name "--no-comments";
  line_numbers := line_numbers a || String.eqb name "--line-numbers";
  no_show_editor := no_show_editor a || String.eqb name "--no-show-editor";
  precision := if String.eqb name "--precision" then value else precision a;
  preamble := if String.eqb name "--preamble" then Some value else preamble a;
  postamble := if String.eqb name "--postamble" then Some value else postamble a;
  inches := inches a || String.eqb name "--inches";
  modal := modal a || String.eqb name "--modal";
  axis_modal := axis_modal a || String.eqb name "--axis-modal";
  no_tlo := no_tlo a || String.eqb name "--no-tlo"
|}.

(** The namespace after the words [toks]; [None] is the exit of
    [parser.error]: a word that is no option, an unknown or ambiguous
    option, a value given to a switch, a value missing. *)
Fixpoint consume (toks : list string) (a : Args) : option Args :=
  match toks with
  | [] => Some a
  | tok :: rest =>
      if String.eqb tok "--" || negb (String.prefix "--" tok) then None
      else
        let '(name, explicit) := split_eq EmptyString tok in
        match resolve name with
        | None => None
        | Some full =>
            if has full switches then
              match explicit with
              | Some _ => None
              | None => consume rest (store full "" a)
              end
            else
              match explicit with
              | Some value => consume rest (store full value a)
              | None =>
                  match rest with
                  | value :: rest' =>
                      if option_like value then None
                      else consume rest' (store full value a)
                  | [] => None
                  end
              end
        end
  end.

Definition argv (argstring : string) : ArgOutcome :=
  match lex Between EmptyString argstring with
  | None => ArgException
  | Some toks =>
      match consume toks defaults with
      | Some a => Parsed a
      | None => ArgExit
      end
  end.

(** FreeCAD run from a script: no GUI, so no editor.  A file opens under
    any name but the empty one. *)
#[export, refine] Instance host : Host := {|
  num := float;
  num_eqb := PrimFloat.eqb;
  num_of_Z := float_of_Z;
  length_as := to_inches;
  velocity_as := to_speed;
  gt_zero := positive;
  format_float := fixed;
  str_int := int_text;
  parse_args := argv;
  GuiUp := false;
  editor_dialog := fun _ => None;
  can_open := fun filename => negb (String.eqb filename "")
|}.
Proof.
  - abstract (intros spec x e; unfold fixed; destruct (spec_digits spec);
              intros E; inversion E; reflexivity).
  - abstract (intros x e; unfold int_text; destruct (FloatOps.Prim2SF x);
              intros E; inversion E; auto).
Defined.

(** [Path.Command(name, {...})] *)
Definition cmd (name : string) (ps : list (string * float)) : Command num :=
  {| Name := name; Parameters := list_to_map ps |}.

(** An operation: active, with a label, a path and a tool. *)
Definition operation (name : string) (commands : list (Command num)) (tool : option string)
  : PathObj num :=
  mkPathObj name name (Some true) None None None (Some commands) tool.

(** A compound of the given members. *)
Definition compound (name : string) (members : list (PathObj num)) : PathObj num :=
  mkPathObj name name None None None (Some members) (Some []) None.

(** Something that is not a path, such as the stock of a job. *)
Definition stock (name : string) : PathObj num :=
  mkPathObj name name None None None None None None.

(** The interpreter just after [import wincnc_post]. *)
Definition fresh (now_ : string) : World :=
  {| module := imported now_; stdout := []; files := ∅ |}.

(** *** Sample runs *)

(** The import time. *)
Definition t0 : string := "2022-06-01 12:00:00".

(** Argument strings: a one-line preamble and postamble, without header;
    [plain] also without comments. *)
Definition bare : string := "--no-header --preamble=G90 --postamble=M2".
Definition plain : string := "--no-header --no-comments --preamble=G90 --postamble=M2".
Definition suppress : string :=
  "--axis-modal --no-header --no-comments --preamble=G90 --postamble=M2".
Definition numbered : string :=
  "--line-numbers --no-header --no-comments --preamble=G90 --postamble=M2".

(** The namespaces [argparse] returns for [plain] and for [suppress]. *)
Definition plain_args : Args := {|
  no_header := true;
  no_comments := true;
  line_numbers := false;
  no_show_editor := false;
  precision := "3";
  preamble := Some "G90";
  postamble := Some "M2";
  inches := false;
  modal := false;
  axis_modal := false;
  no_tlo := false
|}.

Definition suppress_args : Args := {|
  no_header := true;
  no_comments := true;
  line_numbers := false;
  no_show_editor := false;
  precision := "3";
  preamble := Some "G90";
  postamble := Some "M2";
  inches := false;
  modal := false;
  axis_modal := true;
  no_tlo := false
|}.

(** The globals after [processArguments(plain)] on a fresh import. *)
Definition plain_module : Module :=
  module (snd (processArguments plain (fresh t0))).

(** The globals after [processArguments(suppress)] on a fresh import. *)
Definition suppress_module : Module :=
  module (snd (processArguments suppress (fresh t0))).

(** What [plain] puts before the first operation. *)
Definition plain_head : string :=
  "G90" +:+ NL +:+ "G20" +:+ TAB +:+ TAB +:+ "[Units: in]" +:+ NL +:+ NL.

(** What [bare] puts before the first operation, which is labelled Op. *)
Definition bare_head : string :=
  "[Begin Preamble]" +:+ NL +:+ plain_head +:+ "[Operation: Op (in/min)]" +:+ NL.

(** [G1 X25.4]: one inch along X. *)
Definition move : Command num := cmd "G1" [("X", inch)].

(** One inch per minute, in millimetres per second. *)
Definition inch_per_minute : float := PrimFloat.div inch (float_of_Z 60).

(** The locals of [parse] once [move] has been written as the first
    command of a leaf. *)
Definition after_move : Loop num := {|
  out := OutStr ("G1 X1.000 " +:+ NL);
  lastcommand := Some "G1";
  currLocation := Parameters move ∪ currLocation initial_loop
|}.

(** [G1 X25.4 F0.42333]: the same at one inch per minute. *)
Definition feed_move : Command num := cmd "G1" [("X", inch); ("F", inch_per_minute)].

(** [M6 T1] *)
Definition change_T1 : Command num := cmd "M6" [("T", float_of_Z 1)].

(** An operation that changes to tool T1 and then moves. *)
Definition change_then_move : PathObj num :=
  operation "Op" [change_T1; move] (Some "T1").

(** An operation whose second command is a message. *)
Definition move_then_message : PathObj num :=
  operation "Op" [move; cmd "message" []] None.

End TestHost.

(** * Properties *)

Section Properties.
Context `{Host}.

(** ** Induction on document objects, through the members of a group *)

Section PathObj_induction.
Variable P : PathObj num -> Prop.
Hypothesis P_single : forall n l a b c p t, P (mkPathObj n l a b c None p t).
Hypothesis P_group :
  forall n l a b c members p t,
    Forall P members -> P (mkPathObj n l a b c (Some members) p t).

Fixpoint PathObj_nested_ind (o : PathObj num) : P o :=
  match o with
  | mkPathObj n l a b c None p t => P_single n l a b c p t
  | mkPathObj n l a b c (Some members) p t =>
      P_group n l a b c members p t
        ((fix all (ms : list (PathObj num)) : Forall P ms :=
            match ms with
            | [] => @List.Forall_nil _ P
            | x :: ms' => @List.Forall_cons _ P x ms' (PathObj_nested_ind x) (all ms')
            end) members)
  end.
End PathObj_induction.

(** ** Relations on the globals that every step of the emitter respects

    A relation that is reflexive and transitive, and that relates the
    globals before and after each of the two writes the emitter makes
    (the counter advanced by ten while line numbering is on, the flag set
    while it is unset), relates the globals before and after any run of
    [parse] or of the emission loop. *)

Section Preservation.
Variable R : Module -> Module -> Prop.
Hypothesis R_refl : forall m, R m m.
Hypothesis R_trans : forall a b c, R a b -> R b c -> R a c.
Hypothesis R_count :
  forall m, OUTPUT_LINE_NUMBERS m = true -> R m (set_LINENR (LINENR m + 10) m).
Hypothesis R_skip :
  forall m, first_tool_change_skipped m = false ->
            R m (set_first_tool_change_skipped true m).

Lemma preserves_ret {A} (a : A) : preserves R (ret a).
Proof. intros m. apply R_refl. Qed.

Lemma preserves_raise {A} e : preserves R (@raise Module A e).
Proof. intros m. apply R_refl. Qed.

Lemma preserves_lift_res {A} (r : Res A) : preserves R (lift_res r).
Proof. intros m. apply R_refl. Qed.

Lemma preserves_bind {A B} (c : M Module A) (k : A -> M Module B) :
  preserves R c -> (forall a, preserves R (k a)) -> preserves R (bind c k).
Proof.
  intros Hc Hk m. unfold bind. specialize (Hc m).
  destruct (c m) as [[a|e] m']; simpl in *.
  - eapply R_trans; [exact Hc | apply Hk].
  - exact Hc.
Qed.

Lemma preserves_for_each {A B} (l : list A) (body : A -> B -> M Module B) acc :
  (forall x b, preserves R (body x b)) -> preserves R (for_each l body acc).
Proof.
  intros Hb. revert acc. induction l as [|x l IH]; intros acc; simpl.
  - apply preserves_ret.
  - apply preserves_bind; [apply Hb | exact IH].
Qed.

Lemma preserves_when {A} b (c : A -> M Module A) a :
  (forall a, preserves R (c a)) -> preserves R (when b c a).
Proof. intros Hc. unfold when. destruct b; [apply Hc | apply preserves_ret]. Qed.

Lemma preserves_linenumber : preserves R linenumber.
Proof.
  intros m. unfold linenumber. destruct (OUTPUT_LINE_NUMBERS m) eqn:E; simpl.
  - apply R_count. exact E.
  - apply R_refl.
Qed.

Lemma preserves_numbered_lines {B} (add : B -> string -> B) lines suffix acc :
  preserves R (numbered_lines add lines suffix acc).
Proof.
  unfold numbered_lines. apply preserves_for_each. intros line b.
  apply preserves_bind; [apply preserves_linenumber | intros n; apply preserves_ret].
Qed.

Lemma preserves_add_numbered text gcode : preserves R (add_numbered text gcode).
Proof.
  unfold add_numbered.
  apply preserves_bind; [apply preserves_linenumber | intros n; apply preserves_ret].
Qed.

Lemma preserves_emit_line outstring st : preserves R (emit_line outstring st).
Proof.
  unfold emit_line. destruct outstring as [|w ws]; [apply preserves_ret|].
  apply preserves_bind; [|intros a; apply preserves_ret].
  intros m. destruct (OUTPUT_LINE_NUMBERS m).
  - apply (preserves_bind linenumber); [apply preserves_linenumber|].
    intros n. apply preserves_ret.
  - apply R_refl.
Qed.

Lemma preserves_tool_change pathobj st : preserves R (tool_change pathobj st).
Proof.
  intros m. unfold tool_change.
  destruct (first_tool_change_skipped m) eqn:E; simpl.
  - clear E. revert m. apply preserves_bind; [apply preserves_numbered_lines|].
    intros o1. apply preserves_bind.
    + destruct (Tool pathobj); [apply preserves_ret | apply preserves_raise].
    + intros label. apply preserves_bind; [apply preserves_numbered_lines|].
      intros o3. apply preserves_ret.
  - apply R_skip. exact E.
Qed.

Lemma preserves_message_and_line command outstring st :
  preserves R (message_and_line command outstring st).
Proof.
  unfold message_and_line. destruct (String.eqb command "message").
  - intros m. destruct (negb (OUTPUT_COMMENTS m)).
    + apply preserves_emit_line.
    + destruct (pop_first outstring); [apply preserves_emit_line | apply R_refl].
  - apply preserves_emit_line.
Qed.

Lemma preserves_serialize pathobj c outstring st :
  preserves R (serialize pathobj c outstring st).
Proof.
  intros m. unfold serialize.
  destruct (emit_params m (currLocation st) c params outstring); [|apply R_refl].
  destruct (String.eqb (Name c) "M6").
  - apply preserves_tool_change.
  - apply preserves_message_and_line.
Qed.

Lemma preserves_parse_command pathobj c st : preserves R (parse_command pathobj c st).
Proof.
  intros m. unfold parse_command.
  destruct (if MODAL m && bool_decide (lastcommand st = Some (Name c))
            then pop_first [Name c] else Ok [Name c]); [|apply R_refl].
  destruct (String.get 0 (Name c)); [|apply R_refl].
  destruct (Ascii.eqb a0 "("%char).
  - destruct (negb (OUTPUT_COMMENTS m)); [apply R_refl|].
    destruct (pop_last a); [|apply R_refl].
    destruct (String.eqb (Name c) "G99"); [apply R_refl | apply preserves_serialize].
  - destruct (String.eqb (Name c) "G99"); [apply R_refl | apply preserves_serialize].
Qed.

Lemma preserves_parse_group (ps : list (PathObj num)) :
  Forall (fun p => preserves R (parse p)) ps ->
  forall out, preserves R (parse_group parse ps out).
Proof.
  induction 1 as [|p ps Hp _ IH]; intros out; simpl.
  - apply preserves_ret.
  - apply preserves_bind; [exact Hp|]. intros v.
    apply preserves_bind; [apply preserves_lift_res | exact IH].
Qed.

Lemma preserves_parse pathobj : preserves R (parse pathobj).
Proof.
  induction pathobj as [n l a b c p t | n l a b c members p t IH]
    using PathObj_nested_ind; simpl.
  - destruct p as [commands|]; [|apply preserves_ret].
    apply preserves_bind; [|intros st; apply preserves_ret].
    apply preserves_for_each. intros x st. apply preserves_parse_command.
  - apply preserves_parse_group. exact IH.
Qed.

Lemma preserves_export_object obj gcode : preserves R (export_object obj gcode).
Proof.
  unfold export_object. destruct (inactive obj); [apply preserves_ret|].
  apply preserves_bind.
  { intros m. apply preserves_when. intros g. apply preserves_add_numbered. }
  intros g1. apply preserves_bind; [apply preserves_numbered_lines|].
  intros g2. apply preserves_bind.
  { intros m. apply preserves_when. intros g. apply preserves_add_numbered. }
  intros g3. apply preserves_bind.
  { apply preserves_when. intros g. apply preserves_add_numbered. }
  intros g4. apply preserves_bind.
  { apply preserves_when. intros g. apply preserves_add_numbered. }
  intros g5. apply preserves_bind; [apply preserves_parse|].
  intros v. apply preserves_bind; [apply preserves_lift_res|].
  intros g6. apply preserves_bind; [apply preserves_numbered_lines|].
  intros g7. destruct (negb (String.eqb (coolant_mode obj) "None")).
  - apply preserves_bind; [|intros g; apply preserves_add_numbered].
    intros m. apply preserves_when. intros g. apply preserves_add_numbered.
  - apply preserves_ret.
Qed.

Lemma preserves_export_gcode objectslist : preserves R (export_gcode objectslist).
Proof.
  unfold export_gcode. apply preserves_bind.
  { intros m. apply preserves_when. intros g.
    apply preserves_bind; [apply preserves_add_numbered|]. intros g1.
    apply preserves_bind; [apply preserves_add_numbered|]. intros g2.
    apply preserves_add_numbered. }
  intros g1. apply preserves_bind.
  { intros m. apply preserves_when. intros g. apply preserves_add_numbered. }
  intros g2. apply preserves_bind.
  { intros m. apply preserves_numbered_lines. }
  intros g3. apply preserves_bind.
  { intros m. apply preserves_add_numbered. }
  intros g4. apply preserves_bind.
  { apply preserves_for_each. intros obj g. apply preserves_export_object. }
  intros g5. apply preserves_bind.
  { intros m. apply R_refl. }
  intros g6 m. apply preserves_numbered_lines.
Qed.

End Preservation.

(** ** What a run leaves in the globals *)

(** The settings are not written: only the counter and the flag move. *)
Lemma config_export_gcode objectslist m :
  config (snd (export_gcode objectslist m)) = config m.
Proof.
  apply (preserves_export_gcode (fun a b => config b = config a)); try reflexivity.
  intros a b c Hab Hbc. congruence.
Qed.

Lemma advanced_refl m : advanced m m.
Proof. split; [lia | tauto]. Qed.

Lemma advanced_trans a b c : advanced a b -> advanced b c -> advanced a c.
Proof. intros [L1 F1] [L2 F2]. split; [lia | tauto]. Qed.

Lemma advanced_count m : advanced m (set_LINENR (LINENR m + 10) m).
Proof. split; simpl; [lia | tauto]. Qed.

Lemma advanced_skip m : advanced m (set_first_tool_change_skipped true m).
Proof. split; simpl; [lia | tauto]. Qed.

Lemma advanced_export_gcode objectslist m :
  advanced m (snd (export_gcode objectslist m)).
Proof.
  apply (preserves_export_gcode advanced advanced_refl advanced_trans
           (fun m _ => advanced_count m) (fun m _ => advanced_skip m)).
Qed.

Lemma module_eq (m m' : Module) :
  config m = config m' ->
  LINENR m = LINENR m' ->
  first_tool_change_skipped m = first_tool_change_skipped m' ->
  m = m'.
Proof.
  destruct m, m'. unfold config. simpl. intros E L F.
  injection E as ?. subst. reflexivity.
Qed.

Lemma apply_args_idem a m : apply_args a (apply_args a m) = apply_args a m.
Proof.
  unfold apply_args. simpl.
  destruct (no_comments a), (no_header a), (line_numbers a), (no_show_editor a),
    (modal a), (no_tlo a), (axis_modal a), (inches a), (preamble a), (postamble a);
    reflexivity.
Qed.

Lemma apply_args_LINENR a m : LINENR (apply_args a m) = LINENR m.
Proof. reflexivity. Qed.

Lemma apply_args_skipped a m :
  first_tool_change_skipped (apply_args a m) = first_tool_change_skipped m.
Proof. reflexivity. Qed.

(** ** [export] seen from the globals *)

Lemma export_result objectslist filename argstring w a :
  parse_args argstring = Parsed a ->
  fst (export objectslist filename argstring w) =
    match List.find not_a_path objectslist with
    | Some _ => Ok None
    | None =>
        match export_gcode objectslist (apply_args a (module w)) with
        | (Raise e, _) => Raise e
        | (Ok gcode, m) =>
            if negb (String.eqb filename "-") && negb (can_open filename)
            then Raise OSError
            else Ok (Some (fst (review m gcode)))
        end
    end.
Proof.
  intros Ea. unfold export, processArguments. rewrite Ea. cbv zeta.
  destruct (List.find not_a_path objectslist); [reflexivity|].
  cbn [module print with_module].
  replace (module (if axis_modal a
                   then print "here" (print ("Show editor = " +:+
                          (if SHOW_EDITOR (apply_args a (module w)) then "1" else "0")) w)
                   else print ("Show editor = " +:+
                          (if SHOW_EDITOR (apply_args a (module w)) then "1" else "0")) w))
    with (module w) by (destruct (axis_modal a); reflexivity).
  destruct (export_gcode objectslist (apply_args a (module w))) as [[gcode|e] m]; [|reflexivity].
  destruct (review m gcode) as [final skipped].
  destruct (negb (String.eqb filename "-")), (can_open filename); reflexivity.
Qed.

Lemma export_module objectslist filename argstring w a :
  parse_args argstring = Parsed a ->
  module (snd (export objectslist filename argstring w)) =
    match List.find not_a_path objectslist with
    | Some _ => apply_args a (module w)
    | None => snd (export_gcode objectslist (apply_args a (module w)))
    end.
Proof.
  intros Ea. unfold export, processArguments. rewrite Ea. cbv zeta.
  destruct (List.find not_a_path objectslist); [reflexivity|].
  cbn [module print with_module].
  replace (module (if axis_modal a
                   then print "here" (print ("Show editor = " +:+
                          (if SHOW_EDITOR (apply_args a (module w)) then "1" else "0")) w)
                   else print ("Show editor = " +:+
                          (if SHOW_EDITOR (apply_args a (module w)) then "1" else "0")) w))
    with (module w) by (destruct (axis_modal a); reflexivity).
  destruct (export_gcode objectslist (apply_args a (module w))) as [[gcode|e] m]; [|reflexivity].
  destruct (review m gcode) as [final skipped].
  destruct skipped, (negb (String.eqb filename "-")), (can_open filename); reflexivity.
Qed.

Lemma export_unparsed objectslist filename argstring w :
  (forall a, parse_args argstring <> Parsed a) ->
  snd (export objectslist filename argstring w) = w /\
  (fst (export objectslist filename argstring w) = Ok None \/
   fst (export objectslist filename argstring w) = Raise SystemExit).
Proof.
  intros Hn. unfold export, processArguments.
  destruct (parse_args argstring) as [a| |]; [destruct (Hn a); reflexivity | |]; simpl; auto.
Qed.

(** ** C4: calling [export] twice *)

(** C4, as amended.  [export] takes the globals as the previous call left
    them.  Two calls in a row with the same containers and the same
    argument string return the same text whenever the first call hands
    back the line counter and the tool-change flag as it found them (as
    it does when line numbering is off and no [M6] flips the flag); the
    settings the first call wrote are then written again unchanged. *)
Theorem export_twice_same_text objectslist filename argstring w :
  LINENR (module (snd (export objectslist filename argstring w))) = LINENR (module w) ->
  first_tool_change_skipped (module (snd (export objectslist filename argstring w)))
    = first_tool_change_skipped (module w) ->
  fst (export objectslist filename argstring
         (snd (export objectslist filename argstring w)))
    = fst (export objectslist filename argstring w).
Proof.
  intros HL HF.
  destruct (parse_args argstring) as [a| |] eqn:Ea.
  - pose proof (export_module objectslist filename argstring w a Ea) as Hm.
    rewrite (export_result _ _ _ (snd (export objectslist filename argstring w)) a Ea).
    rewrite (export_result _ _ _ w a Ea).
    destruct (List.find not_a_path objectslist); [reflexivity|].
    assert (Hsame : module (snd (export objectslist filename argstring w))
                    = apply_args a (module w)).
    { apply module_eq.
      - rewrite Hm. apply config_export_gcode.
      - rewrite HL. reflexivity.
      - rewrite HF. reflexivity. }
    rewrite Hsame, apply_args_idem. reflexivity.
  - destruct (export_unparsed objectslist filename argstring w) as [Hw _].
    { intros a. rewrite Ea. discriminate. }
    rewrite Hw. reflexivity.
  - destruct (export_unparsed objectslist filename argstring w) as [Hw _].
    { intros a. rewrite Ea. discriminate. }
    rewrite Hw. reflexivity.
Qed.

(** ** The parameter loop *)

Lemma emit_params_app m cur c ps1 ps2 outstring :
  emit_params m cur c (ps1 ++ ps2) outstring =
    match emit_params m cur c ps1 outstring with
    | Ok o => emit_params m cur c ps2 o
    | Raise e => Raise e
    end.
Proof.
  revert outstring. induction ps1 as [|p ps1 IH]; intros outstring; simpl.
  - reflexivity.
  - destruct (emit_param m cur c p outstring); [apply IH | reflexivity].
Qed.

Lemma append_token_from_empty outstring param text :
  append_token outstring param text =
    match append_token [] param text with
    | Ok extra => Ok (outstring ++ extra)
    | Raise e => Raise e
    end.
Proof. destruct text; reflexivity. Qed.

Lemma emit_other_from_empty m cur param v outstring :
  emit_other m cur param v outstring =
    match emit_other m cur param v [] with
    | Ok extra => Ok (outstring ++ extra)
    | Raise e => Raise e
    end.
Proof.
  unfold emit_other.
  repeat match goal with
         | |- context [if ?b then _ else _] => destruct b
         end;
    solve [apply append_token_from_empty | rewrite app_nil_r; reflexivity].
Qed.

Lemma emit_param_from_empty m cur c param outstring :
  emit_param m cur c param outstring =
    match emit_param m cur c param [] with
    | Ok extra => Ok (outstring ++ extra)
    | Raise e => Raise e
    end.
Proof.
  unfold emit_param.
  destruct (Parameters c !! param) as [v|]; [|rewrite app_nil_r; reflexivity].
  destruct (String.eqb param "F"); [|apply emit_other_from_empty].
  destruct (cur !! param) as [old|]; [|reflexivity].
  destruct (negb (num_eqb old v) || OUTPUT_DOUBLES m); [|apply emit_other_from_empty].
  destruct (negb (is_rapid (Name c))); [|rewrite app_nil_r; reflexivity].
  destruct (gt_zero _); [apply append_token_from_empty | rewrite app_nil_r; reflexivity].
Qed.

(** The tokens of the parameters do not depend on what stands before
    them. *)
Lemma emit_params_from_empty m cur c ps outstring :
  emit_params m cur c ps outstring =
    match emit_params m cur c ps [] with
    | Ok extra => Ok (outstring ++ extra)
    | Raise e => Raise e
    end.
Proof.
  revert outstring. induction ps as [|p ps IH]; intros outstring; simpl.
  - rewrite app_nil_r. reflexivity.
  - rewrite (emit_param_from_empty m cur c p outstring).
    destruct (emit_param m cur c p []) as [e1|x]; [|reflexivity].
    rewrite (IH (outstring ++ e1)), (IH e1).
    destruct (emit_params m cur c ps []) as [e2|x]; [|reflexivity].
    rewrite app_assoc. reflexivity.
Qed.

(** They are the tokens of the letters, one letter after the other. *)
Lemma emit_params_gather m cur c ps :
  emit_params m cur c ps [] = gather (fun p => emit_param m cur c p []) ps.
Proof.
  induction ps as [|p ps IH]; simpl; [reflexivity|].
  destruct (emit_param m cur c p []) as [e1|x]; [|reflexivity].
  rewrite (emit_params_from_empty m cur c ps e1), IH. reflexivity.
Qed.

Lemma tokens_then_nil_r a : tokens_then a (Ok []) = a.
Proof. destruct a as [x|e]; simpl; [rewrite app_nil_r|]; reflexivity. Qed.

Lemma tokens_then_assoc a b c :
  tokens_then (tokens_then a b) c = tokens_then a (tokens_then b c).
Proof.
  destruct a as [x|e]; [|reflexivity]. destruct b as [y|e]; [|reflexivity].
  destruct c as [z|e]; [|reflexivity]. simpl. rewrite app_assoc. reflexivity.
Qed.

Lemma gather_app tokens ps1 ps2 :
  gather tokens (ps1 ++ ps2) = tokens_then (gather tokens ps1) (gather tokens ps2).
Proof.
  induction ps1 as [|p ps1 IH]; simpl.
  - destruct (gather tokens ps2); reflexivity.
  - rewrite IH, tokens_then_assoc. reflexivity.
Qed.

Lemma emit_params_no_parameters m cur c ps outstring :
  Parameters c = ∅ -> emit_params m cur c ps outstring = Ok outstring.
Proof.
  intros E. induction ps as [|p ps IH]; simpl; [reflexivity|].
  unfold emit_param. rewrite E, lookup_empty. exact IH.
Qed.

(** What the loop can raise: with a feed on record, only what [format]
    and [int] raise. *)
Lemma append_token_raises outstring param text e :
  append_token outstring param text = Raise e -> text = Raise e.
Proof. destruct text; simpl; intros E; inversion E. reflexivity. Qed.

Lemma emit_other_raises m cur param v outstring e :
  emit_other m cur param v outstring = Raise e -> e = ValueError \/ e = OverflowError.
Proof.
  unfold emit_other.
  repeat match goal with
         | |- context [if ?b then _ else _] => destruct b
         end;
    intros E; try discriminate E; apply append_token_raises in E;
    solve [eapply str_int_raises; exact E
          | left; eapply format_float_raises; exact E].
Qed.

Lemma emit_param_raises m cur c param outstring e :
  is_Some (cur !! "F") ->
  emit_param m cur c param outstring = Raise e -> e = ValueError \/ e = OverflowError.
Proof.
  intros [tracked HF]. unfold emit_param.
  destruct (Parameters c !! param) as [v|]; [|discriminate].
  destruct (String.eqb param "F") eqn:EF; [|apply emit_other_raises].
  apply String.eqb_eq in EF. subst param. rewrite HF.
  destruct (negb (num_eqb tracked v) || OUTPUT_DOUBLES m); [|apply emit_other_raises].
  destruct (negb (is_rapid (Name c))); [|discriminate].
  destruct (gt_zero _); [|discriminate].
  intros E. apply append_token_raises in E. left. eapply format_float_raises. exact E.
Qed.

Lemma emit_params_raises m cur c ps outstring e :
  is_Some (cur !! "F") ->
  emit_params m cur c ps outstring = Raise e -> e = ValueError \/ e = OverflowError.
Proof.
  intros HF. revert outstring. induction ps as [|p ps IH]; intros outstring; simpl.
  - discriminate.
  - destruct (emit_param m cur c p outstring) as [o|x] eqn:E1; [apply IH|].
    intros E. inversion E. subst x. eapply emit_param_raises; eauto.
Qed.



(** ** The locals after one command *)

Lemma emit_line_locals outstring st m st' m' :
  emit_line outstring st m = (Ok st', m') ->
  lastcommand st' = lastcommand st /\ currLocation st' = currLocation st.
Proof.
  unfold emit_line. destruct outstring as [|w ws].
  - intros E. inversion E. subst. auto.
  - unfold bind, ret, linenumber.
    destruct (OUTPUT_LINE_NUMBERS m); simpl; intros E; inversion E; subst; auto.
Qed.

Lemma tool_change_locals pathobj st m st' m' :
  tool_change pathobj st m = (Ok st', m') ->
  lastcommand st' = lastcommand st /\ currLocation st' = currLocation st.
Proof.
  unfold tool_change.
  destruct (SKIP_FIRST_TOOLCHANGE && negb (first_tool_change_skipped m)).
  - intros E. inversion E. subst. auto.
  - unfold bind.
    destruct (numbered_lines iadd_str (splitlines true PRE_TOOL_CHANGE) "" (out st) m)
      as [[o1|e] m1]; [|discriminate].
    destruct (Tool pathobj) as [label|]; simpl; [|discriminate].
    destruct (numbered_lines iadd_str (splitlines true TOOL_CHANGE) ""
                (iadd_str o1 (TOOL_CHANGE_NOTIFICATION label)) m1)
      as [[o3|e] m3]; [|discriminate].
    intros E. inversion E. subst. auto.
Qed.

Lemma message_and_line_locals command outstring st m st' m' :
  message_and_line command outstring st m = (Ok st', m') ->
  lastcommand st' = lastcommand st /\ currLocation st' = currLocation st.
Proof.
  unfold message_and_line. destruct (String.eqb command "message").
  - destruct (negb (OUTPUT_COMMENTS m)).
    + intros E. apply emit_line_locals in E. exact E.
    + destruct (pop_first outstring); [|discriminate].
      apply emit_line_locals.
  - apply emit_line_locals.
Qed.

Lemma serialize_locals pathobj c outstring st m st' m' :
  serialize pathobj c outstring st m = (Ok st', m') ->
  lastcommand st' = Some (Name c) /\
  currLocation st' = Parameters c ∪ currLocation st.
Proof.
  unfold serialize.
  destruct (emit_params m (currLocation st) c params outstring); [|discriminate].
  destruct (String.eqb (Name c) "M6"); intros E.
  - apply tool_change_locals in E. exact E.
  - apply message_and_line_locals in E. exact E.
Qed.

(** Every command that is not dropped early is recorded, whatever it
    printed: its name becomes [lastcommand] and all its parameters are
    merged into [currLocation]. *)
Lemma parse_command_locals pathobj c st m st' m' :
  parse_command pathobj c st m = (Ok st', m') ->
  if dropped_early m c
  then st' = st /\ m' = m
  else lastcommand st' = Some (Name c) /\
       currLocation st' = Parameters c ∪ currLocation st.
Proof.
  unfold parse_command, dropped_early.
  destruct (if MODAL m && bool_decide (lastcommand st = Some (Name c))
            then pop_first [Name c] else Ok [Name c]); [|discriminate].
  destruct (String.get 0 (Name c)) as [c0|]; [|discriminate].
  destruct (Ascii.eqb c0 "("%char); simpl.
  - destruct (negb (OUTPUT_COMMENTS m)); simpl.
    + intros E. inversion E. auto.
    + destruct (pop_last a); [|discriminate].
      destruct (String.eqb (Name c) "G99").
      * intros E. inversion E. auto.
      * apply serialize_locals.
  - destruct (String.eqb (Name c) "G99").
    + intros E. inversion E. auto.
    + apply serialize_locals.
Qed.

(** The feed is always on record: the first move puts it there and no
    command removes a key. *)
Lemma parse_command_keeps_feed pathobj c st m st' m' :
  is_Some (currLocation st !! "F") ->
  parse_command pathobj c st m = (Ok st', m') ->
  is_Some (currLocation st' !! "F").
Proof.
  intros HF E. apply parse_command_locals in E.
  destruct (dropped_early m c).
  - destruct E as [-> _]. exact HF.
  - destruct E as [_ ->]. rewrite lookup_union.
    destruct HF as [x ->]. destruct (Parameters c !! "F"); simpl; eauto.
Qed.

Lemma initial_loop_has_feed : is_Some (currLocation initial_loop !! "F").
Proof.
  unfold initial_loop, firstmove_Parameters. cbn [currLocation]. rewrite lookup_union.
  rewrite lookup_insert_ne by discriminate.
  rewrite lookup_insert_ne by discriminate.
  rewrite lookup_insert_ne by discriminate.
  rewrite lookup_insert_eq. simpl. eauto.
Qed.

(** So every command of every leaf is serialized with a feed on record. *)
Lemma leaf_keeps_feed pathobj commands st m st' m' :
  is_Some (currLocation st !! "F") ->
  for_each commands (parse_command pathobj) st m = (Ok st', m') ->
  is_Some (currLocation st' !! "F").
Proof.
  revert st m. induction commands as [|c commands IH]; intros st m HF; simpl.
  - intros E. inversion E. subst. exact HF.
  - unfold bind. destruct (parse_command pathobj c st m) as [[st1|e] m1] eqn:E1; [|discriminate].
    apply IH. eapply parse_command_keeps_feed; eauto.
Qed.

(** ** The three ways through the loop body *)

(** A [G99], and a comment while comments are off, leave the body before
    anything is touched. *)
Lemma dropped_early_skips pathobj c st m :
  dropped_early m c = true -> parse_command pathobj c st m = (Ok st, m).
Proof.
  unfold dropped_early, parse_command. intros Hd.
  destruct (String.get 0 (Name c)) as [c0|] eqn:Hget; [|discriminate].
  destruct (Ascii.eqb c0 "("%char) eqn:Eparen.
  - assert (HG : String.eqb (Name c) "G99" = false).
    { apply Ascii.eqb_eq in Eparen. subst c0.
      destruct (Name c) as [|x r]; [discriminate|]. simpl in Hget. inversion Hget.
      reflexivity. }
    rewrite HG, orb_false_r in Hd. simpl in Hd. rewrite Hd.
    destruct (MODAL m && bool_decide (lastcommand st = Some (Name c))); reflexivity.
  - simpl in Hd. rewrite Hd.
    destruct (MODAL m && bool_decide (lastcommand st = Some (Name c))); reflexivity.
Qed.

(** An [M6] runs the parameter loop, is recorded, and goes to the
    tool-change branch; what the loop collected is not used. *)
Lemma tool_change_step pathobj c st m :
  Name c = "M6" ->
  parse_command pathobj c st m =
    match emit_params m (currLocation st) c params [] with
    | Ok _ => tool_change pathobj (recorded c st) m
    | Raise e => (Raise e, m)
    end.
Proof.
  intros Hname. unfold parse_command, serialize, recorded. generalize params. intros ps.
  rewrite Hname.
  destruct (MODAL m && bool_decide (lastcommand st = Some "M6")); simpl.
  - destruct (emit_params m (currLocation st) c ps []); reflexivity.
  - rewrite (emit_params_from_empty m (currLocation st) c ps ["M6"]).
    destruct (emit_params m (currLocation st) c ps []); reflexivity.
Qed.

(** A command of the ordinary kind writes its name, unless modal mode
    takes it away, and then the tokens of its parameters. *)
Lemma ordinary_line pathobj c st m :
  ordinary c = true ->
  parse_command pathobj c st m =
    match emit_params m (currLocation st) c params [] with
    | Ok extra => emit_line (name_tokens m st c ++ extra) (recorded c st) m
    | Raise e => (Raise e, m)
    end.
Proof.
  unfold ordinary, name_tokens. intros Hord.
  destruct (String.get 0 (Name c)) as [c0|] eqn:Hget; [|discriminate].
  apply andb_prop in Hord. destruct Hord as [Hord Hmsg].
  apply andb_prop in Hord. destruct Hord as [Hord HM6].
  apply andb_prop in Hord. destruct Hord as [Hparen HG99].
  apply negb_true_iff in Hmsg, HM6, HG99, Hparen.
  unfold parse_command, serialize. generalize params. intros ps.
  rewrite Hget, Hparen, HG99.
  destruct (MODAL m && bool_decide (lastcommand st = Some (Name c))); simpl.
  - destruct (emit_params m (currLocation st) c ps []); [|reflexivity].
    rewrite HM6. unfold message_and_line. rewrite Hmsg. reflexivity.
  - rewrite (emit_params_from_empty m (currLocation st) c ps [Name c]).
    destruct (emit_params m (currLocation st) c ps []); [|reflexivity].
    rewrite HM6. unfold message_and_line. rewrite Hmsg. reflexivity.
Qed.

Lemma config_parse_command pathobj c st m :
  config (snd (parse_command pathobj c st m)) = config m.
Proof.
  apply (preserves_parse_command (fun a b => config b = config a)); try reflexivity.
  intros a b d Hab Hbd. congruence.
Qed.

(** ** C8: the feed *)

Lemma params_split : params = params_before_F ++ "F" :: params_after_F.
Proof. reflexivity. Qed.

Lemma feed_contribution m cur c v tracked :
  Parameters c !! "F" = Some v ->
  cur !! "F" = Some tracked ->
  emit_param m cur c "F" [] = feed_tokens m tracked c v.
Proof.
  intros Hv Hcur. unfold emit_param, feed_tokens. rewrite Hv. simpl. rewrite Hcur.
  destruct (num_eqb tracked v) eqn:Eeq; simpl.
  - destruct (OUTPUT_DOUBLES m) eqn:Ed; simpl.
    + destruct (is_rapid (Name c)); simpl; [reflexivity|].
      rewrite andb_true_r. destruct (gt_zero _); reflexivity.
    + unfold emit_other. simpl. rewrite Ed, Hcur, Eeq. simpl.
      rewrite andb_false_r. destruct (is_rapid (Name c)); reflexivity.
  - destruct (is_rapid (Name c)); simpl; [reflexivity|].
    rewrite andb_true_r. destruct (gt_zero _); reflexivity.
Qed.

(** C8, as amended.  For a command that carries [F], the tracked feed
    being on record: the parameter loop contributes nothing for [F] when
    the command is a rapid move ([G0] or [G00]); otherwise it contributes
    the feed, converted to the speed unit and formatted at the configured
    precision, exactly when the converted value is strictly positive and
    the feed differs from the tracked one or duplicate output is on; when
    the precision is no format, [format] raises instead.  The tokens of
    the loop are those of the letters before [F], then these, then those
    of the letters after [F].  They are written, after the name, in the
    line of every command of the ordinary kind; a [G99], a comment while
    comments are off and an [M6] write no line, whatever [F] they
    carry. *)
Theorem feed_rule pathobj c st m v tracked :
  Parameters c !! "F" = Some v ->
  currLocation st !! "F" = Some tracked ->
  emit_param m (currLocation st) c "F" [] = feed_tokens m tracked c v /\
  emit_params m (currLocation st) c params [] =
    tokens_then
      (gather (fun p => emit_param m (currLocation st) c p []) params_before_F)
      (tokens_then (feed_tokens m tracked c v)
         (gather (fun p => emit_param m (currLocation st) c p []) params_after_F)) /\
  (ordinary c = true ->
   parse_command pathobj c st m =
     match emit_params m (currLocation st) c params [] with
     | Ok extra => emit_line (name_tokens m st c ++ extra) (recorded c st) m
     | Raise e => (Raise e, m)
     end) /\
  (dropped_early m c = true -> parse_command pathobj c st m = (Ok st, m)) /\
  (Name c = "M6" ->
   parse_command pathobj c st m =
     match emit_params m (currLocation st) c params [] with
     | Ok _ => tool_change pathobj (recorded c st) m
     | Raise e => (Raise e, m)
     end).
Proof.
  intros Hv Hcur.
  pose proof (feed_contribution m (currLocation st) c v tracked Hv Hcur) as HF.
  split; [exact HF|]. split; [|split; [|split]].
  - rewrite emit_params_gather, params_split, gather_app. cbn [gather].
    rewrite HF. reflexivity.
  - apply ordinary_line.
  - apply dropped_early_skips.
  - apply tool_change_step.
Qed.

(** ** C2: the axis-modal flag *)

Lemma length_rule m cur c param v tracked :
  length_letter param = true ->
  Parameters c !! param = Some v ->
  cur !! param = Some tracked ->
  emit_param m cur c param [] =
    if negb (OUTPUT_DOUBLES m) && num_eqb tracked v
    then Ok []
    else length_token m param v.
Proof.
  unfold length_letter. intros Hl Hv Hcur.
  apply negb_true_iff in Hl.
  repeat (apply orb_false_iff in Hl; destruct Hl as [Hl ?]).
  unfold emit_param, emit_other, length_token.
  rewrite Hv, Hl. repeat match goal with E : String.eqb _ _ = false |- _ => rewrite E; clear E end.
  rewrite Hcur. reflexivity.
Qed.

(** C2, as amended.  [--axis-modal] turns duplicate output off, that is,
    it enables the suppression of repeated axis values; without the flag
    [processArguments] leaves the setting as it finds it (on after import,
    still off after an earlier call with the flag), and no step of a run
    writes it.  When a command that was recorded is followed by a command
    that carries the same value for a length letter, the second command
    contributes no token for that letter exactly when duplicate output is
    off and the value equals itself; otherwise it contributes the letter
    with the value converted and formatted.  The line of a second command
    of the ordinary kind is its name, unless modal mode takes it away,
    and then what the letters contribute, in the order of [params]. *)
Theorem axis_modal_suppresses_duplicates argstring a w :
  parse_args argstring = Parsed a ->
  OUTPUT_DOUBLES (module (snd (processArguments argstring w)))
    = (if axis_modal a then false else OUTPUT_DOUBLES (module w)) /\
  (forall objectslist filename,
     OUTPUT_DOUBLES (module (snd (export objectslist filename argstring w)))
       = (if axis_modal a then false else OUTPUT_DOUBLES (module w))) /\
  (forall pathobj c st m,
     OUTPUT_DOUBLES (snd (parse_command pathobj c st m)) = OUTPUT_DOUBLES m) /\
  forall pathobj c1 c2 st m0 st1 m param v,
    dropped_early m0 c1 = false ->
    parse_command pathobj c1 st m0 = (Ok st1, m) ->
    length_letter param = true ->
    Parameters c1 !! param = Some v ->
    Parameters c2 !! param = Some v ->
    emit_param m (currLocation st1) c2 param [] =
      (if negb (OUTPUT_DOUBLES m) && num_eqb v v
       then Ok []
       else length_token m param v) /\
    (ordinary c2 = true ->
     parse_command pathobj c2 st1 m =
       match gather (fun p => emit_param m (currLocation st1) c2 p []) params with
       | Ok extra => emit_line (name_tokens m st1 c2 ++ extra) (recorded c2 st1) m
       | Raise e => (Raise e, m)
       end).
Proof.
  intros Ea. split; [|split; [|split]].
  - unfold processArguments. rewrite Ea. simpl. reflexivity.
  - intros objectslist filename.
    rewrite (export_module _ _ _ _ a Ea).
    destruct (List.find not_a_path objectslist); [reflexivity|].
    pose proof (config_export_gcode objectslist (apply_args a (module w))) as E.
    apply (f_equal OUTPUT_DOUBLES) in E. exact E.
  - intros pathobj c st m.
    pose proof (config_parse_command pathobj c st m) as E.
    apply (f_equal OUTPUT_DOUBLES) in E. exact E.
  - intros pathobj c1 c2 st m0 st1 m param v Hd E Hl H1 H2. split.
    + apply parse_command_locals in E. rewrite Hd in E. destruct E as [_ Ecur].
      apply length_rule; [exact Hl | exact H2 |].
      rewrite Ecur. apply lookup_union_Some_l. exact H1.
    + intros Hord. rewrite <- emit_params_gather. apply ordinary_line. exact Hord.
Qed.

(** ** Strings and the two forms of [out] *)

Lemma append_assoc (a b c : string) : (a +:+ b) +:+ c = a +:+ (b +:+ c).
Proof.
  induction a as [|x a IH]; [reflexivity|].
  change (String x ((a +:+ b) +:+ c) = String x (a +:+ (b +:+ c))).
  rewrite IH. reflexivity.
Qed.

Lemma append_empty_r (a : string) : a +:+ "" = a.
Proof.
  induction a as [|x a IH]; [reflexivity|].
  change (String x (a +:+ "") = String x a). rewrite IH. reflexivity.
Qed.

Lemma list_ascii_of_string_append (a b : string) :
  list_ascii_of_string (a +:+ b) = list_ascii_of_string a ++ list_ascii_of_string b.
Proof.
  induction a as [|x a IH]; [reflexivity|].
  change (x :: list_ascii_of_string (a +:+ b)
          = x :: (list_ascii_of_string a ++ list_ascii_of_string b)).
  rewrite IH. reflexivity.
Qed.

Lemma iadd_str_append out a b : iadd_str (iadd_str out a) b = iadd_str out (a +:+ b).
Proof.
  destruct out as [t|l]; cbn [iadd_str].
  - rewrite append_assoc. reflexivity.
  - rewrite list_ascii_of_string_append, app_assoc. reflexivity.
Qed.

Lemma iadd_str_empty out : iadd_str out "" = out.
Proof.
  destruct out as [t|l]; cbn [iadd_str list_ascii_of_string];
    [rewrite append_empty_r | rewrite app_nil_r]; reflexivity.
Qed.

Lemma iadd_empty out : iadd out (OutStr "") = Ok out.
Proof.
  destruct out as [t|l]; cbn [iadd list_ascii_of_string];
    [rewrite append_empty_r | rewrite app_nil_r]; reflexivity.
Qed.

(** Without line numbers a block of lines kept with their ends is added
    as it stands and the counter rests. *)
Lemma numbered_lines_off lines out m :
  OUTPUT_LINE_NUMBERS m = false ->
  numbered_lines iadd_str lines "" out m = (Ok (iadd_str out (String.concat "" lines)), m).
Proof.
  intros Hoff. unfold numbered_lines. revert out.
  induction lines as [|l lines IH]; intros out; simpl.
  - rewrite iadd_str_empty. reflexivity.
  - unfold bind at 1. unfold bind at 1. unfold linenumber. rewrite Hoff. simpl.
    rewrite IH, iadd_str_append, append_empty_r.
    destruct lines as [|l' lines']; simpl; [rewrite append_empty_r|]; reflexivity.
Qed.

Lemma numbered_lines_returns {B} (add : B -> string -> B) lines suffix acc m :
  exists acc' m', numbered_lines add lines suffix acc m = (Ok acc', m').
Proof.
  unfold numbered_lines. revert acc m.
  induction lines as [|l lines IH]; intros acc m; simpl.
  - unfold ret. eauto.
  - unfold bind at 1. unfold bind at 1. unfold linenumber.
    destruct (OUTPUT_LINE_NUMBERS m); simpl; apply IH.
Qed.

(** ** C5: the tool change *)

(** C5, as amended.  A command named [M6] never reaches the token path:
    once the parameter loop has run (an exception of [format] or [int]
    leaves the command there), its name has been recorded as
    [lastcommand] and its parameters merged into [currLocation], and then
    the tool-change branch alone decides the output.  While the flag is
    unset the branch writes nothing, leaves the line counter alone and
    sets the flag.  Once the flag is set, on a leaf that has a tool label,
    it adds the pre-tool-change block, the notification with the label
    and the measurement block, each block line behind its line number;
    with line numbering off the added text is exactly these three blocks,
    so the name token of the command is not written. *)
Theorem tool_change_command pathobj c st m :
  Name c = "M6" ->
  parse_command pathobj c st m =
    match emit_params m (currLocation st) c params [] with
    | Ok _ => tool_change pathobj (recorded c st) m
    | Raise e => (Raise e, m)
    end /\
  (first_tool_change_skipped m = false ->
   tool_change pathobj (recorded c st) m
     = (Ok (recorded c st), set_first_tool_change_skipped true m)) /\
  (first_tool_change_skipped m = true ->
   forall label, Tool pathobj = Some label ->
     (exists o1 m1 o3 m3,
        numbered_lines iadd_str (splitlines true PRE_TOOL_CHANGE) "" (out st) m
          = (Ok o1, m1) /\
        numbered_lines iadd_str (splitlines true TOOL_CHANGE) ""
          (iadd_str o1 (TOOL_CHANGE_NOTIFICATION label)) m1 = (Ok o3, m3) /\
        tool_change pathobj (recorded c st) m
          = (Ok {| out := o3;
                   lastcommand := Some (Name c);
                   currLocation := Parameters c ∪ currLocation st |}, m3)) /\
     (OUTPUT_LINE_NUMBERS m = false ->
      tool_change pathobj (recorded c st) m
        = (Ok {| out := iadd_str (out st)
                          (PRE_TOOL_CHANGE +:+ TOOL_CHANGE_NOTIFICATION label
                           +:+ TOOL_CHANGE);
                 lastcommand := Some (Name c);
                 currLocation := Parameters c ∪ currLocation st |}, m))).
Proof.
  intros Hname. split; [|split].
  - apply tool_change_step. exact Hname.
  - intros Hflag. unfold tool_change. rewrite Hflag. reflexivity.
  - intros Hflag label Hlabel. split.
    + unfold tool_change. rewrite Hflag. simpl. unfold bind. cbn [out recorded].
      destruct (numbered_lines_returns iadd_str (splitlines true PRE_TOOL_CHANGE) ""
                  (out st) m) as (o1 & m1 & E1).
      rewrite E1, Hlabel. simpl.
      destruct (numbered_lines_returns iadd_str (splitlines true TOOL_CHANGE) ""
                  (iadd_str o1 (TOOL_CHANGE_NOTIFICATION label)) m1) as (o3 & m3 & E3).
      rewrite E3. exists o1, m1, o3, m3. auto.
    + intros Hoff. unfold tool_change. rewrite Hflag. simpl. unfold bind. cbn [out recorded].
      rewrite (numbered_lines_off _ _ _ Hoff), Hlabel. simpl.
      rewrite (numbered_lines_off _ _ _ Hoff).
      rewrite !iadd_str_append.
      replace (String.concat "" (splitlines true PRE_TOOL_CHANGE)) with PRE_TOOL_CHANGE
        by (vm_compute; reflexivity).
      replace (String.concat "" (splitlines true TOOL_CHANGE)) with TOOL_CHANGE
        by (vm_compute; reflexivity).
      reflexivity.
Qed.

(** ** C7: comments *)

Lemma comment_name name :
  String.get 0 name = Some "("%char ->
  String.eqb name "G99" = false /\ String.eqb name "M6" = false /\
  String.eqb name "message" = false.
Proof.
  destruct name as [|c0 rest]; [discriminate|]. simpl. intros E. inversion E. subst.
  auto.
Qed.

(** C7, as amended.  For a command whose name begins with ["("]: while
    comments are off the command is discarded, locals and globals
    untouched.  While comments are on (and modal suppression has not
    already taken the name away), the name token is replaced by the name
    with every ["("] turned into ["["] and every [")"] into ["]"]; the
    parameters of the command are not dropped: the parameter loop collects
    their tokens after the comment (an exception of [format] or [int]
    leaves the command there), the command is recorded, and the line is
    written from all of these tokens.  A comment without parameters gives
    the line made of the rewritten comment alone. *)
Theorem comment_command pathobj c st m :
  String.get 0 (Name c) = Some "("%char ->
  (OUTPUT_COMMENTS m = false -> parse_command pathobj c st m = (Ok st, m)) /\
  (OUTPUT_COMMENTS m = true ->
   MODAL m && bool_decide (lastcommand st = Some (Name c)) = false ->
   parse_command pathobj c st m =
     match emit_params m (currLocation st) c params [] with
     | Ok extra => emit_line (bracketed (Name c) :: extra) (recorded c st) m
     | Raise e => (Raise e, m)
     end /\
   (Parameters c = ∅ -> emit_params m (currLocation st) c params [] = Ok []) /\
   (Parameters c = ∅ -> OUTPUT_LINE_NUMBERS m = false ->
    parse_command pathobj c st m
      = (Ok {| out := iadd_str (iadd_str (out st) (bracketed (Name c) +:+ COMMAND_SPACE)) NL;
               lastcommand := Some (Name c);
               currLocation := Parameters c ∪ currLocation st |}, m))).
Proof.
  intros Hget. destruct (comment_name _ Hget) as (HG & HM & Hmsg). split.
  - intros Hoff. unfold parse_command. rewrite Hget.
    destruct (MODAL m && bool_decide (lastcommand st = Some (Name c))); simpl;
      rewrite Hoff; reflexivity.
  - intros Hon Hmodal.
    assert (Hstep : parse_command pathobj c st m =
                    match emit_params m (currLocation st) c params [] with
                    | Ok extra => emit_line (bracketed (Name c) :: extra) (recorded c st) m
                    | Raise e => (Raise e, m)
                    end).
    { unfold parse_command, serialize. generalize params. intros ps.
      rewrite Hmodal, Hget. simpl. rewrite Hon, HG. simpl.
      fold (bracketed (Name c)).
      rewrite (emit_params_from_empty m (currLocation st) c ps [bracketed (Name c)]).
      destruct (emit_params m (currLocation st) c ps []) as [extra|e]; [|reflexivity].
      rewrite HM. unfold message_and_line. rewrite Hmsg. reflexivity. }
    split; [exact Hstep|]. split.
    + intros Hnone. apply emit_params_no_parameters. exact Hnone.
    + intros Hnone Hoff. rewrite Hstep.
      rewrite (emit_params_no_parameters _ _ _ _ _ Hnone).
      unfold emit_line, bind. rewrite Hoff. reflexivity.
Qed.

(** ** C9: G99 *)

Lemma bind_ext {S A B} (c : M S A) (k k' : A -> M S B) s :
  (forall a s', k a s' = k' a s') -> bind c k s = bind c k' s.
Proof. intros E. unfold bind. destruct (c s) as [[a|e] s']; [apply E | reflexivity]. Qed.

Lemma for_each_ext {S A B} (l : list A) (body body' : A -> B -> M S B) acc s :
  (forall x b s', body x b s' = body' x b s') ->
  for_each l body acc s = for_each l body' acc s.
Proof.
  intros E. revert acc s. induction l as [|x l IH]; intros acc s; simpl; [reflexivity|].
  unfold bind. rewrite E. destruct (body' x acc s) as [[a|e] s']; [apply IH | reflexivity].
Qed.

(** Elements on which the body does nothing may be left out of a loop. *)
Lemma for_each_filter {S A B} (keep : A -> bool) (l : list A)
    (body : A -> B -> M S B) acc s :
  (forall x b s', keep x = false -> body x b s' = (Ok b, s')) ->
  for_each (List.filter keep l) body acc s = for_each l body acc s.
Proof.
  intros E. revert acc s. induction l as [|x l IH]; intros acc s; simpl; [reflexivity|].
  destruct (keep x) eqn:Ek; simpl.
  - unfold bind. destruct (body x acc s) as [[a|e] s']; [apply IH | reflexivity].
  - unfold bind. rewrite (E _ _ _ Ek). apply IH.
Qed.

Lemma parse_command_G99 pathobj c st m :
  Name c = "G99" -> parse_command pathobj c st m = (Ok st, m).
Proof.
  intros E. unfold parse_command. rewrite E.
  destruct (MODAL m && bool_decide (lastcommand st = Some "G99")); reflexivity.
Qed.

(** [parse_command] looks at the object only for its tool label. *)
Lemma parse_command_same_tool p p' c st m :
  Tool p = Tool p' -> parse_command p c st m = parse_command p' c st m.
Proof.
  intros E. unfold parse_command, serialize, tool_change. rewrite E. reflexivity.
Qed.

Lemma parse_group_ext (ps : list (PathObj num)) (f : PathObj num -> PathObj num) :
  Forall (fun p => forall m, parse (f p) m = parse p m) ps ->
  forall out m, parse_group parse (List.map f ps) out m = parse_group parse ps out m.
Proof.
  induction 1 as [|p ps Hp _ IH]; intros out m; simpl; [reflexivity|].
  unfold bind at 1 3. rewrite Hp.
  destruct (parse p m) as [[v|e] m']; [|reflexivity].
  apply bind_ext. intros out' m''. apply IH.
Qed.

Lemma parse_without_G99 o m : parse (without_G99 o) m = parse o m.
Proof.
  revert m.
  induction o as [n l a b c p t | n l a b c members p t IH] using PathObj_nested_ind;
    intros m; simpl.
  - destruct p as [commands|]; simpl; [|reflexivity].
    unfold bind. rewrite for_each_filter.
    + rewrite (for_each_ext commands _
                 (parse_command (mkPathObj n l a b c None (Some commands) t)));
        [reflexivity|].
      intros x st m'. apply parse_command_same_tool. reflexivity.
    + intros x st m' Hx. apply parse_command_G99.
      apply negb_false_iff, String.eqb_eq in Hx. exact Hx.
  - apply parse_group_ext. exact IH.
Qed.

Lemma find_without_G99 objectslist :
  List.find not_a_path (List.map without_G99 objectslist)
    = option_map without_G99 (List.find not_a_path objectslist).
Proof.
  induction objectslist as [|o os IH]; simpl; [reflexivity|].
  replace (not_a_path (without_G99 o)) with (not_a_path o).
  - destruct (not_a_path o); [reflexivity | exact IH].
  - destruct o as [n l a b c g [p|] t]; reflexivity.
Qed.

Lemma export_object_without_G99 o gcode m :
  export_object (without_G99 o) gcode m = export_object o gcode m.
Proof.
  unfold export_object.
  replace (inactive (without_G99 o)) with (inactive o) by (destruct o; reflexivity).
  replace (coolant_mode (without_G99 o)) with (coolant_mode o) by (destruct o; reflexivity).
  replace (Label (without_G99 o)) with (Label o) by (destruct o; reflexivity).
  destruct (inactive o); [reflexivity|].
  repeat (apply bind_ext; intros ? ?).
  unfold bind at 1 3. rewrite parse_without_G99. reflexivity.
Qed.

Lemma export_gcode_without_G99 objectslist m :
  export_gcode (List.map without_G99 objectslist) m = export_gcode objectslist m.
Proof.
  unfold export_gcode.
  repeat (apply bind_ext; intros ? ?).
  unfold bind at 1 3.
  replace (for_each (List.map without_G99 objectslist) export_object a2 s'2)
    with (for_each objectslist export_object a2 s'2); [reflexivity|].
  clear. revert a2 s'2. induction objectslist as [|o os IH]; intros g m; simpl; [reflexivity|].
  unfold bind. rewrite export_object_without_G99.
  destruct (export_object o g m) as [[g'|e] m']; [apply IH | reflexivity].
Qed.

(** C9, as amended.  A command named [G99] contributes no token, no line
    and no update of the locals or of the globals: one step of the loop
    on it returns everything unchanged, and [export] gives the same
    result, the same globals, the same printed lines and the same files
    for a list of containers as for that list with every [G99] command
    taken out.  (The letters G99 can still reach the output through
    other inputs: a comment, a label, a preamble.) *)
Theorem G99_contributes_nothing :
  (forall pathobj parameters st m,
     parse_command pathobj {| Name := "G99"; Parameters := parameters |} st m
       = (Ok st, m)) /\
  (forall objectslist filename argstring w,
     export (List.map without_G99 objectslist) filename argstring w
       = export objectslist filename argstring w).
Proof.
  split.
  - intros pathobj parameters st m. apply parse_command_G99. reflexivity.
  - intros objectslist filename argstring w. unfold export.
    destruct (processArguments argstring w) as [[[|]|e] w']; try reflexivity.
    rewrite find_without_G99.
    destruct (List.find not_a_path objectslist) as [obj|]; simpl.
    + destruct obj; reflexivity.
    + rewrite export_gcode_without_G99. reflexivity.
Qed.

(** ** C10: objects that are not paths *)

Lemma not_a_path_iff obj : not_a_path obj = true <-> Path obj = None.
Proof.
  unfold not_a_path. destruct (Path obj) as [p|]; simpl; split; intros E;
    solve [discriminate E | reflexivity].
Qed.

Lemma parse_group_app (xs ys : list (PathObj num)) out m :
  parse_group parse (xs ++ ys) out m
    = bind (parse_group parse xs out) (parse_group parse ys) m.
Proof.
  revert out m. induction xs as [|x xs IH]; intros out m; simpl; [reflexivity|].
  unfold bind. destruct (parse x m) as [[v|e] m1]; [|reflexivity].
  unfold lift_res. destruct (iadd out v) as [out'|e]; [|reflexivity].
  rewrite IH. reflexivity.
Qed.

Lemma parse_not_a_path o m :
  Group o = None -> Path o = None -> parse o m = (Ok (OutStr ""), m).
Proof. destruct o as [n l a b c g p t]. simpl. intros -> ->. reflexivity. Qed.

Lemma find_first {A} (f : A -> bool) pre x post :
  Forall (fun y => f y = false) pre -> f x = true ->
  List.find f (pre ++ x :: post) = Some x.
Proof.
  intros Hpre Hx. induction Hpre as [|y pre Hy _ IH]; simpl.
  - rewrite Hx. reflexivity.
  - rewrite Hy. exact IH.
Qed.

(** C10.  When a container of the list given to [export] has no [Path],
    all the containers before it having one, [export] prints, after the
    lines of [processArguments], the line that names this container,
    ["the object <Name> is not a path. Please select only path and
    Compounds."], and returns [None]: nothing else is printed, no text is
    produced, no file is written, and the globals are those the arguments
    gave, the line counter where it was.  A member of a group that has
    neither [Group] nor [Path] is not an error: [parse] returns the empty
    string for it and leaves the globals as they are, so the group is
    emitted as if the member were not there. *)
Theorem not_a_path_handling :
  (forall pre obj post filename argstring a w,
     parse_args argstring = Parsed a ->
     Forall (fun o => is_Some (Path o)) pre ->
     Path obj = None ->
     fst (export (pre ++ obj :: post) filename argstring w) = Ok None /\
     stdout (snd (export (pre ++ obj :: post) filename argstring w))
       = stdout w
         ++ ["Show editor = " +:+ (if SHOW_EDITOR (apply_args a (module w)) then "1" else "0")]
         ++ (if axis_modal a then ["here"] else [])
         ++ ["the object " +:+ obj_Name obj
             +:+ " is not a path. Please select only path and Compounds."] /\
     files (snd (export (pre ++ obj :: post) filename argstring w)) = files w /\
     module (snd (export (pre ++ obj :: post) filename argstring w))
       = apply_args a (module w) /\
     LINENR (module (snd (export (pre ++ obj :: post) filename argstring w)))
       = LINENR (module w)) /\
  (forall o m, Group o = None -> Path o = None -> parse o m = (Ok (OutStr ""), m)) /\
  (forall n l a b c xs o ys p t m,
     Group o = None -> Path o = None ->
     parse (mkPathObj n l a b c (Some (xs ++ o :: ys)) p t) m
       = parse (mkPathObj n l a b c (Some (xs ++ ys)) p t) m).
Proof.
  split; [|split].
  - intros pre obj post filename argstring a w Ea Hpre Hnone.
    assert (Ef : List.find not_a_path (pre ++ obj :: post) = Some obj).
    { apply find_first; [|apply not_a_path_iff; exact Hnone].
      eapply Forall_impl; [exact Hpre|]. intros o [p Hp]. unfold not_a_path.
      rewrite Hp. apply negb_false_iff, bool_decide_eq_true. eauto. }
    unfold export, processArguments. rewrite Ea. cbv zeta. rewrite Ef.
    unfold not_a_path_message.
    destruct (axis_modal a); simpl; rewrite <- ?app_assoc; repeat split; reflexivity.
  - exact parse_not_a_path.
  - intros n l a b c xs o ys p t m Hg Hp. simpl.
    rewrite !parse_group_app. apply bind_ext. intros out m'. simpl.
    unfold bind at 1. rewrite (parse_not_a_path o m' Hg Hp).
    unfold bind, lift_res. rewrite iadd_empty. reflexivity.
Qed.

(** ** C3: where the state of a run lives *)

Lemma export_advanced objectslist filename argstring w :
  advanced (module w) (module (snd (export objectslist filename argstring w))).
Proof.
  destruct (parse_args argstring) as [a| |] eqn:Ea.
  - rewrite (export_module _ _ _ _ a Ea).
    destruct (List.find not_a_path objectslist).
    + split; [rewrite apply_args_LINENR; lia | rewrite apply_args_skipped; tauto].
    + eapply advanced_trans; [|apply advanced_export_gcode].
      split; [rewrite apply_args_LINENR; lia | rewrite apply_args_skipped; tauto].
  - destruct (export_unparsed objectslist filename argstring w) as [-> _].
    { intros a. rewrite Ea. discriminate. }
    apply advanced_refl.
  - destruct (export_unparsed objectslist filename argstring w) as [-> _].
    { intros a. rewrite Ea. discriminate. }
    apply advanced_refl.
Qed.

(** C3, as amended.  The state of a run is in two places.  The line
    counter and the tool-change flag are globals of the module:
    [processArguments] leaves them as it finds them, so a call of
    [export] starts from whatever the previous call left; they are
    threaded through all the containers and leaves of the run, and after
    the call the counter is no smaller and a flag that was set is still
    set.  [lastcommand] and [currLocation] are locals of [parse]: every
    call, for a group or a leaf, begins with no last command and with the
    location of the synthetic first move, and nothing but the globals
    passes from one member of a group to the next. *)
Theorem run_state_scope :
  (forall argstring w,
     LINENR (module (snd (processArguments argstring w))) = LINENR (module w) /\
     first_tool_change_skipped (module (snd (processArguments argstring w)))
       = first_tool_change_skipped (module w)) /\
  (forall objectslist filename argstring w,
     LINENR (module w)
       <= LINENR (module (snd (export objectslist filename argstring w))) /\
     (first_tool_change_skipped (module w) = true ->
      first_tool_change_skipped
        (module (snd (export objectslist filename argstring w))) = true)) /\
  (forall xs ys out m,
     parse_group parse (xs ++ ys) out m
       = bind (parse_group parse xs out) (parse_group parse ys) m) /\
  (forall o commands m,
     Group o = None -> Path o = Some commands ->
     parse o m = bind (for_each commands (parse_command o) initial_loop)
                   (fun st => ret (out st)) m) /\
  lastcommand initial_loop = None /\
  currLocation initial_loop = firstmove_Parameters.
Proof.
  split; [|split; [|split; [|split; [|split]]]].
  - intros argstring w. unfold processArguments.
    destruct (parse_args argstring) as [a| |]; simpl; auto.
  - intros. apply export_advanced.
  - exact parse_group_app.
  - intros o commands m Hg Hp. destruct o as [n l a b c g p t]. simpl in *.
    subst. reflexivity.
  - reflexivity.
  - unfold initial_loop. simpl. apply map_eq. intros k.
    rewrite lookup_union, lookup_empty.
    destruct (firstmove_Parameters !! k); reflexivity.
Qed.

End Properties.

(** * Runs on the test host *)

Section Runs.
Import TestHost.

(** ** C1: a message while comments are off *)

(** C1 at its failing input.  With [--no-comments], a leaf that moves and
    then carries a [message] command: [parse] throws away the line of the
    move, keeps the line of the message, and returns a list of characters
    instead of a string; [export] then raises [TypeError] when it adds
    that list to its text.  With comments on, the same leaf gives the
    line of the move and nothing for the message. *)
Theorem message_without_comments :
  fst (parse move_then_message plain_module)
    = Ok (OutList (list_ascii_of_string ("message " +:+ NL))) /\
  fst (export [move_then_message] "-" plain (fresh t0)) = Raise TypeError /\
  fst (export [move_then_message] "-" bare (fresh t0))
    = Ok (Some (bare_head +:+ "G1 X1.000 " +:+ NL +:+ NL +:+ "[Postamble]" +:+ NL +:+ "M2")).
Proof. repeat split; vm_compute; reflexivity. Qed.

(** ** C2 *)

(** With [--axis-modal], the X of the second of two equal moves is left
    out; without the flag, on a fresh import, it is written; without the
    flag after a call that gave it, it is left out again. *)
Lemma axis_modal_omits_repeated_axis :
  fst (export [operation "Op" [move; move] None] "-" suppress (fresh t0))
    = Ok (Some (plain_head +:+ "G1 X1.000 " +:+ NL +:+ "G1 " +:+ NL +:+ NL +:+ "M2")) /\
  fst (export [operation "Op" [move; move] None] "-" plain (fresh t0))
    = Ok (Some (plain_head +:+ "G1 X1.000 " +:+ NL +:+ "G1 X1.000 " +:+ NL +:+ NL +:+ "M2")) /\
  fst (export [operation "Op" [move; move] None] "-" plain
         (snd (export [] "-" suppress (fresh t0))))
    = Ok (Some (plain_head +:+ "G1 X1.000 " +:+ NL +:+ "G1 " +:+ NL +:+ NL +:+ "M2")).
Proof. repeat split; vm_compute; reflexivity. Qed.

(** The second of two equal moves after [--axis-modal]: no token for X,
    and the line is the name alone. *)
Lemma axis_modal_witness :
  OUTPUT_DOUBLES suppress_module = false /\
  emit_param suppress_module (currLocation after_move) move "X" [] = Ok [] /\
  parse_command (operation "Op" [move; move] None) move after_move suppress_module
    = (Ok {| out := OutStr ("G1 X1.000 " +:+ NL +:+ "G1 " +:+ NL);
             lastcommand := Some "G1";
             currLocation := Parameters move ∪ currLocation after_move |},
       suppress_module).
Proof.
  assert (E : parse_args suppress = Parsed suppress_args) by (vm_compute; reflexivity).
  pose proof (axis_modal_suppresses_duplicates suppress suppress_args (fresh t0) E)
    as (Hflag & _ & _ & Hstep).
  split; [exact Hflag|].
  assert (H1 : dropped_early suppress_module move = false) by reflexivity.
  assert (H2 : parse_command (operation "Op" [move; move] None) move initial_loop
                 suppress_module = (Ok after_move, suppress_module))
    by (vm_compute; reflexivity).
  assert (H3 : Parameters move !! "X" = Some inch) by (vm_compute; reflexivity).
  destruct (Hstep (operation "Op" [move; move] None) move move initial_loop
              suppress_module after_move suppress_module "X" inch
              H1 H2 eq_refl H3 H3) as [Hletter Hline].
  split.
  - etransitivity; [exact Hletter | vm_compute; reflexivity].
  - etransitivity; [exact (Hline eq_refl) | vm_compute; reflexivity].
Defined.

(** ** C3 *)

(** Duplicates suppressed: two equal moves in two leaves of one compound
    both write their X, where the same moves in one leaf write it once;
    and a second call of [export] in the same interpreter finds the flag
    set, so that the tool change the first call skipped is carried out. *)
Lemma state_is_not_one_per_run :
  fst (export [compound "Job" [operation "A" [move] None; operation "B" [move] None]]
         "-" suppress (fresh t0))
    = Ok (Some (plain_head +:+ "G1 X1.000 " +:+ NL +:+ "G1 X1.000 " +:+ NL +:+ NL +:+ "M2")) /\
  fst (export [operation "A" [move; move] None] "-" suppress (fresh t0))
    = Ok (Some (plain_head +:+ "G1 X1.000 " +:+ NL +:+ "G1 " +:+ NL +:+ NL +:+ "M2")) /\
  first_tool_change_skipped
    (module (snd (export [change_then_move] "-" plain (fresh t0)))) = true /\
  fst (export [change_then_move] "-" plain (fresh t0))
    = Ok (Some (plain_head +:+ "G1 X1.000 " +:+ NL +:+ NL +:+ "M2")) /\
  fst (export [change_then_move] "-" plain
         (snd (export [change_then_move] "-" plain (fresh t0))))
    = Ok (Some (plain_head +:+ PRE_TOOL_CHANGE +:+ TOOL_CHANGE_NOTIFICATION "T1"
                +:+ TOOL_CHANGE +:+ "G1 X1.000 " +:+ NL +:+ NL +:+ "M2")).
Proof. repeat split; vm_compute; reflexivity. Qed.

Lemma run_state_scope_witness :
  parse (operation "Op" [move] None) plain_module
    = bind (for_each [move] (parse_command (operation "Op" [move] None)) initial_loop)
        (fun st => ret (out st)) plain_module.
Proof.
  apply (proj1 (proj2 (proj2 (proj2 run_state_scope)))); reflexivity.
Defined.

(** ** C4 *)

(** With line numbers, the second of two identical calls continues the
    numbering of the first. *)
Lemma second_export_continues_numbering :
  fst (export [] "-" numbered (fresh t0))
    = Ok (Some ("N110 G90" +:+ NL +:+ "N120 G20" +:+ TAB +:+ TAB +:+ "[Units: in]"
                +:+ NL +:+ NL +:+ "N130 M2")) /\
  fst (export [] "-" numbered (snd (export [] "-" numbered (fresh t0))))
    = Ok (Some ("N140 G90" +:+ NL +:+ "N150 G20" +:+ TAB +:+ TAB +:+ "[Units: in]"
                +:+ NL +:+ NL +:+ "N160 M2")).
Proof. split; vm_compute; reflexivity. Qed.

Lemma export_twice_witness :
  fst (export [operation "Op" [move; move] None] "-" plain
         (snd (export [operation "Op" [move; move] None] "-" plain (fresh t0))))
    = fst (export [operation "Op" [move; move] None] "-" plain (fresh t0)).
Proof. apply export_twice_same_text; vm_compute; reflexivity. Defined.

(** ** C5 *)

(** The first [M6] of a run is recorded although it is skipped: after it
    [lastcommand] is [M6] and [currLocation] holds its [T]; and when the
    skipped [M6] carries an X, an equal X of the next move is taken for a
    duplicate. *)
Lemma skipped_tool_change_is_recorded :
  parse_command change_then_move change_T1 initial_loop (imported t0)
    = (Ok (recorded change_T1 initial_loop),
       set_first_tool_change_skipped true (imported t0)) /\
  out (recorded change_T1 initial_loop) = OutStr "" /\
  lastcommand initial_loop = None /\
  lastcommand (recorded change_T1 initial_loop) = Some "M6" /\
  currLocation initial_loop !! "T" = None /\
  currLocation (recorded change_T1 initial_loop) !! "T" = Some (float_of_Z 1) /\
  fst (export [operation "Op" [cmd "M6" [("T", float_of_Z 1); ("X", inch)]; move] (Some "T1")]
         "-" suppress (fresh t0))
    = Ok (Some (plain_head +:+ "G1 " +:+ NL +:+ NL +:+ "M2")).
Proof. repeat split; vm_compute; reflexivity. Qed.

Lemma tool_change_command_witness :
  parse_command change_then_move change_T1 initial_loop (imported t0)
    = tool_change change_then_move (recorded change_T1 initial_loop) (imported t0).
Proof.
  exact (proj1 (tool_change_command change_then_move change_T1 initial_loop (imported t0)
                  eq_refl)).
Defined.

(** ** C6 *)

(** C6 at its failing input.  The counter is 100 after import, and the
    first number written is 110: [linenumber] adds ten before it prints. *)
Theorem first_line_number_is_110 :
  LINENR (module (fresh t0)) = 100 /\
  fst (linenumber (module (snd (processArguments numbered (fresh t0))))) = Ok "N110 " /\
  fst (export [] "-" numbered (fresh t0))
    = Ok (Some ("N110 G90" +:+ NL +:+ "N120 G20" +:+ TAB +:+ TAB +:+ "[Units: in]"
                +:+ NL +:+ NL +:+ "N130 M2")).
Proof. repeat split; vm_compute; reflexivity. Qed.

(** ** C7 *)

(** A comment that carries a parameter: the parameter is written after
    the comment. *)
Lemma comment_keeps_parameters :
  fst (export [operation "Op" [cmd "(note)" [("X", inch)]] None] "-" bare (fresh t0))
    = Ok (Some (bare_head +:+ "[note] X1.000 " +:+ NL +:+ NL +:+ "[Postamble]" +:+ NL +:+ "M2")).
Proof. vm_compute; reflexivity. Qed.

Lemma comment_command_witness :
  parse_command (operation "Op" [] None) (cmd "(note)" []) initial_loop plain_module
    = (Ok initial_loop, plain_module).
Proof.
  apply (proj1 (comment_command (operation "Op" [] None) (cmd "(note)" []) initial_loop
                  plain_module eq_refl)).
  reflexivity.
Defined.

(** ** C8 *)

(** An [M6] that carries a feed: the rule of the claim gives the token
    [F1.000], and no line is written for the command, skipped or not; and
    the same feed on a comment while comments are off. *)
Lemma feed_of_a_tool_change_is_not_written :
  feed_tokens plain_module (float_of_Z 0)
    (cmd "M6" [("T", float_of_Z 1); ("F", inch_per_minute)]) inch_per_minute
    = Ok ["F1.000"] /\
  fst (export [operation "Op" [cmd "M6" [("T", float_of_Z 1); ("F", inch_per_minute)]]
                 (Some "T1")] "-" plain (fresh t0))
    = Ok (Some (plain_head +:+ NL +:+ "M2")) /\
  fst (export [operation "Op" [cmd "M6" [("T", float_of_Z 1); ("F", inch_per_minute)]]
                 (Some "T1")] "-" plain
         (snd (export [change_then_move] "-" plain (fresh t0))))
    = Ok (Some (plain_head +:+ PRE_TOOL_CHANGE +:+ TOOL_CHANGE_NOTIFICATION "T1"
                +:+ TOOL_CHANGE +:+ NL +:+ "M2")) /\
  feed_tokens plain_module (float_of_Z 0)
    (cmd "(note)" [("F", inch_per_minute)]) inch_per_minute = Ok ["F1.000"] /\
  fst (export [operation "Op" [cmd "(note)" [("F", inch_per_minute)]] None]
         "-" plain (fresh t0))
    = Ok (Some (plain_head +:+ NL +:+ "M2")).
Proof. repeat split; vm_compute; reflexivity. Qed.

(** A feed move after import: the feed is written at the seven decimals
    of the import, after the X. *)
Lemma feed_rule_witness :
  emit_param (imported t0) (currLocation initial_loop) feed_move "F" []
    = Ok ["F1.0000000"] /\
  emit_params (imported t0) (currLocation initial_loop) feed_move params []
    = Ok ["X1.0000000"; "F1.0000000"] /\
  fst (parse_command (operation "Op" [feed_move] None) feed_move initial_loop (imported t0))
    = Ok {| out := OutStr ("G1 X1.0000000 F1.0000000 " +:+ NL);
            lastcommand := Some "G1";
            currLocation := Parameters feed_move ∪ currLocation initial_loop |}.
Proof.
  assert (H1 : Parameters feed_move !! "F" = Some inch_per_minute)
    by (vm_compute; reflexivity).
  assert (H2 : currLocation initial_loop !! "F" = Some (float_of_Z 0))
    by (vm_compute; reflexivity).
  destruct (feed_rule (operation "Op" [feed_move] None) feed_move initial_loop (imported t0)
              inch_per_minute (float_of_Z 0) H1 H2) as (HF & Hall & Hline & _ & _).
  split; [etransitivity; [exact HF | vm_compute; reflexivity]|].
  split; [etransitivity; [exact Hall | vm_compute; reflexivity]|].
  rewrite (Hline eq_refl). vm_compute. reflexivity.
Defined.

(** ** C9 *)

(** A comment that reads G99 is written like any other comment. *)
Lemma G99_in_a_comment :
  fst (export [operation "Op" [cmd "(G99)" []] None] "-" bare (fresh t0))
    = Ok (Some (bare_head +:+ "[G99] " +:+ NL +:+ NL +:+ "[Postamble]" +:+ NL +:+ "M2")) /\
  String.index 0 "G99"
    (bare_head +:+ "[G99] " +:+ NL +:+ NL +:+ "[Postamble]" +:+ NL +:+ "M2")
    = Some 65%nat.
Proof. split; vm_compute; reflexivity. Qed.

(** ** C10 *)

(** The stock of a job among the operations given to [export]: the
    operation before it is not emitted, the object after it is not
    looked at. *)
Lemma not_a_path_witness :
  fst (export ([operation "A" [move] None] ++ stock "Stock" :: [stock "Other"])
         "out.tap" plain (fresh t0)) = Ok None /\
  stdout (snd (export ([operation "A" [move] None] ++ stock "Stock" :: [stock "Other"])
                 "out.tap" plain (fresh t0)))
    = ["Show editor = 1";
       "the object Stock is not a path. Please select only path and Compounds."] /\
  files (snd (export ([operation "A" [move] None] ++ stock "Stock" :: [stock "Other"])
                "out.tap" plain (fresh t0))) = ∅ /\
  LINENR (module (snd (export ([operation "A" [move] None] ++ stock "Stock"
                                 :: [stock "Other"]) "out.tap" plain (fresh t0)))) = 100.
Proof.
  assert (E : parse_args plain = Parsed plain_args) by (vm_compute; reflexivity).
  assert (Hpre : Forall (fun o => is_Some (Path o)) [operation "A" [move] None]).
  { repeat constructor. eexists. reflexivity. }
  destruct (proj1 not_a_path_handling [operation "A" [move] None] (stock "Stock")
              [stock "Other"] "out.tap" plain plain_args (fresh t0) E Hpre eq_refl)
    as (Hres & Hout & Hfiles & _ & Hcount).
  auto.
Defined.

End Runs.

(** * Further properties of the module *)

Section Coverage.
Context `{Host}.

(** ** The line counter over a run *)

Lemma config_line_numbers a b :
  config b = config a -> OUTPUT_LINE_NUMBERS b = OUTPUT_LINE_NUMBERS a.
Proof. intros E. apply (f_equal OUTPUT_LINE_NUMBERS) in E. exact E. Qed.

Lemma counted_refl m : counted m m.
Proof. split; [reflexivity|]. exists 0. repeat split; lia. Qed.

Lemma counted_trans a b c : counted a b -> counted b c -> counted a c.
Proof.
  intros [E1 (k1 & P1 & L1 & Z1)] [E2 (k2 & P2 & L2 & Z2)].
  split; [congruence|]. exists (k1 + k2). repeat split; [lia | lia |].
  intros Hoff. rewrite (Z1 Hoff), Z2; [reflexivity|].
  rewrite (config_line_numbers _ _ E1). exact Hoff.
Qed.

Lemma counted_count m :
  OUTPUT_LINE_NUMBERS m = true -> counted m (set_LINENR (LINENR m + 10) m).
Proof.
  intros Hon. split; [reflexivity|]. exists 1. simpl. repeat split; try lia.
  rewrite Hon. discriminate.
Qed.

Lemma counted_skip m :
  first_tool_change_skipped m = false ->
  counted m (set_first_tool_change_skipped true m).
Proof. intros _. split; [reflexivity|]. exists 0. simpl. repeat split; lia. Qed.

Lemma counted_export_gcode objectslist m :
  counted m (snd (export_gcode objectslist m)).
Proof.
  apply (preserves_export_gcode counted counted_refl counted_trans
           counted_count counted_skip).
Qed.

Lemma processArguments_module argstring a w :
  parse_args argstring = Parsed a ->
  module (snd (processArguments argstring w)) = apply_args a (module w).
Proof.
  intros Ea. unfold processArguments. rewrite Ea. cbv zeta.
  destruct (axis_modal a); reflexivity.
Qed.

Lemma processArguments_unparsed argstring w :
  (forall a, parse_args argstring <> Parsed a) ->
  snd (processArguments argstring w) = w.
Proof.
  intros Hn. unfold processArguments.
  destruct (parse_args argstring) as [a| |]; [destruct (Hn a); reflexivity | |]; reflexivity.
Qed.

(** X1.  Whatever [export] is given, the line counter it leaves is the one it
    found plus a whole number of steps of ten. *)
Theorem counter_moves_in_tens objectslist filename argstring w :
  exists k,
    0 <= k /\
    LINENR (module (snd (export objectslist filename argstring w)))
      = LINENR (module w) + 10 * k.
Proof.
  destruct (parse_args argstring) as [a| |] eqn:Ea.
  - rewrite (export_module _ _ _ _ a Ea).
    destruct (List.find not_a_path objectslist).
    + exists 0. rewrite apply_args_LINENR. lia.
    + destruct (counted_export_gcode objectslist (apply_args a (module w)))
        as [_ (k & Pk & Lk & _)].
      exists k. rewrite Lk, apply_args_LINENR. auto.
  - destruct (export_unparsed objectslist filename argstring w) as [-> _].
    { intros a. rewrite Ea. discriminate. }
    exists 0. lia.
  - destruct (export_unparsed objectslist filename argstring w) as [-> _].
    { intros a. rewrite Ea. discriminate. }
    exists 0. lia.
Qed.

(** X2.  When line numbering is off once the arguments are processed, [export]
    leaves the line counter exactly as it found it. *)
Theorem counter_rests_without_numbering objectslist filename argstring w :
  OUTPUT_LINE_NUMBERS (module (snd (processArguments argstring w))) = false ->
  LINENR (module (snd (export objectslist filename argstring w))) = LINENR (module w).
Proof.
  intros Hoff. destruct (parse_args argstring) as [a| |] eqn:Ea.
  - rewrite (processArguments_module _ _ _ Ea) in Hoff.
    rewrite (export_module _ _ _ _ a Ea).
    destruct (List.find not_a_path objectslist); [apply apply_args_LINENR|].
    destruct (counted_export_gcode objectslist (apply_args a (module w)))
      as [_ (k & Pk & Lk & Zk)].
    rewrite Lk, (Zk Hoff), apply_args_LINENR. lia.
  - destruct (export_unparsed objectslist filename argstring w) as [-> _];
      [intros a; rewrite Ea; discriminate | reflexivity].
  - destruct (export_unparsed objectslist filename argstring w) as [-> _];
      [intros a; rewrite Ea; discriminate | reflexivity].
Qed.

(** ** The settings over a run *)

Lemma export_config objectslist filename argstring w a :
  parse_args argstring = Parsed a ->
  config (module (snd (export objectslist filename argstring w)))
    = config (apply_args a (module w)).
Proof.
  intros Ea. rewrite (export_module _ _ _ _ a Ea).
  destruct (List.find not_a_path objectslist); [reflexivity|].
  apply config_export_gcode.
Qed.

(** X3.  No argument string switches back on what an earlier call switched
    off, nor off what it switched on: comments, header, duplicate output,
    the editor and the tool length offset stay off, line numbers and modal
    mode stay on, through any later call of [export]. *)
Theorem switches_are_one_way objectslist filename argstring w :
  (OUTPUT_COMMENTS (module w) = false ->
   OUTPUT_COMMENTS (module (snd (export objectslist filename argstring w))) = false) /\
  (OUTPUT_HEADER (module w) = false ->
   OUTPUT_HEADER (module (snd (export objectslist filename argstring w))) = false) /\
  (OUTPUT_DOUBLES (module w) = false ->
   OUTPUT_DOUBLES (module (snd (export objectslist filename argstring w))) = false) /\
  (SHOW_EDITOR (module w) = false ->
   SHOW_EDITOR (module (snd (export objectslist filename argstring w))) = false) /\
  (USE_TLO (module w) = false ->
   USE_TLO (module (snd (export objectslist filename argstring w))) = false) /\
  (OUTPUT_LINE_NUMBERS (module w) = true ->
   OUTPUT_LINE_NUMBERS (module (snd (export objectslist filename argstring w))) = true) /\
  (MODAL (module w) = true ->
   MODAL (module (snd (export objectslist filename argstring w))) = true).
Proof.
  destruct (parse_args argstring) as [a| |] eqn:Ea.
  - pose proof (export_config objectslist filename argstring w a Ea) as E.
    repeat split; intros Hw.
    + apply (f_equal OUTPUT_COMMENTS) in E. simpl in E. rewrite E, Hw.
      destruct (no_comments a); reflexivity.
    + apply (f_equal OUTPUT_HEADER) in E. simpl in E. rewrite E, Hw.
      destruct (no_header a); reflexivity.
    + apply (f_equal OUTPUT_DOUBLES) in E. simpl in E. rewrite E, Hw.
      destruct (axis_modal a); reflexivity.
    + apply (f_equal SHOW_EDITOR) in E. simpl in E. rewrite E, Hw.
      destruct (no_show_editor a); reflexivity.
    + apply (f_equal USE_TLO) in E. simpl in E. rewrite E, Hw.
      destruct (no_tlo a); reflexivity.
    + apply (f_equal OUTPUT_LINE_NUMBERS) in E. simpl in E. rewrite E, Hw.
      destruct (line_numbers a); reflexivity.
    + apply (f_equal MODAL) in E. simpl in E. rewrite E, Hw.
      destruct (modal a); reflexivity.
  - destruct (export_unparsed objectslist filename argstring w) as [-> _];
      [intros a; rewrite Ea; discriminate | tauto].
  - destruct (export_unparsed objectslist filename argstring w) as [-> _];
      [intros a; rewrite Ea; discriminate | tauto].
Qed.

(** X4.  The arguments of one call applied a second time change nothing more. *)
Theorem processArguments_twice argstring w :
  module (snd (processArguments argstring (snd (processArguments argstring w))))
    = module (snd (processArguments argstring w)).
Proof.
  destruct (parse_args argstring) as [a| |] eqn:Ea.
  - rewrite !(processArguments_module _ _ _ Ea). apply apply_args_idem.
  - rewrite !processArguments_unparsed; try reflexivity;
      intros a; rewrite Ea; discriminate.
  - rewrite !processArguments_unparsed; try reflexivity;
      intros a; rewrite Ea; discriminate.
Qed.

(** X5.  No argument selects metric output: when the unit globals name inches,
    as they do after import, they still do after any call of [export]. *)
Theorem output_unit_stays_inches objectslist filename argstring w :
  UNITS (module w) = "G20" ->
  UNIT_FORMAT (module w) = "in" ->
  UNIT_SPEED_FORMAT (module w) = "in/min" ->
  UNITS (module (snd (export objectslist filename argstring w))) = "G20" /\
  UNIT_FORMAT (module (snd (export objectslist filename argstring w))) = "in" /\
  UNIT_SPEED_FORMAT (module (snd (export objectslist filename argstring w))) = "in/min".
Proof.
  intros HU HF HS. destruct (parse_args argstring) as [a| |] eqn:Ea.
  - pose proof (export_config objectslist filename argstring w a Ea) as E.
    repeat split.
    + apply (f_equal UNITS) in E. simpl in E. rewrite E, HU.
      destruct (inches a); reflexivity.
    + apply (f_equal UNIT_FORMAT) in E. simpl in E. rewrite E, HF.
      destruct (inches a); reflexivity.
    + apply (f_equal UNIT_SPEED_FORMAT) in E. simpl in E. rewrite E, HS.
      destruct (inches a); reflexivity.
  - destruct (export_unparsed objectslist filename argstring w) as [-> _];
      [intros a; rewrite Ea; discriminate | auto].
  - destruct (export_unparsed objectslist filename argstring w) as [-> _];
      [intros a; rewrite Ea; discriminate | auto].
Qed.

(** ** The file *)


(** ** Inactive operations *)

Lemma bind_cong {S A B} (c c' : M S A) (k : A -> M S B) s :
  c s = c' s -> bind c k s = bind c' k s.
Proof. intros E. unfold bind. rewrite E. reflexivity. Qed.

Lemma export_gcode_ext l l' m :
  (forall gcode m', for_each l export_object gcode m' = for_each l' export_object gcode m') ->
  export_gcode l m = export_gcode l' m.
Proof.
  intros E. unfold export_gcode.
  repeat (apply bind_ext; intros ? ?).
  apply bind_cong. apply E.
Qed.

Lemma find_skip {A} (f : A -> bool) xs x ys :
  f x = false -> List.find f (xs ++ x :: ys) = List.find f (xs ++ ys).
Proof.
  intros Hx. induction xs as [|y xs IH]; simpl.
  - rewrite Hx. reflexivity.
  - destruct (f y); [reflexivity | exact IH].
Qed.

Lemma for_each_skip {S A B} (body : A -> B -> M S B) xs x ys acc s :
  (forall b s', body x b s' = (Ok b, s')) ->
  for_each (xs ++ x :: ys) body acc s = for_each (xs ++ ys) body acc s.
Proof.
  intros Hx. revert acc s. induction xs as [|y xs IH]; intros acc s; simpl.
  - unfold bind. rewrite Hx. reflexivity.
  - unfold bind. destruct (body y acc s) as [[b|e] s']; [apply IH | reflexivity].
Qed.

(** X8.  An operation that is switched off, by its own [Active] or by that of
    its base, is passed over: with it or without it in the list, [export]
    returns the same text and leaves the same globals, printed lines and
    files.  (It must still have a [Path], or [export] stops at it.) *)
Theorem inactive_operation_is_skipped xs obj ys filename argstring w :
  inactive obj = true ->
  not_a_path obj = false ->
  export (xs ++ obj :: ys) filename argstring w = export (xs ++ ys) filename argstring w.
Proof.
  intros Hin Hpath. unfold export.
  destruct (processArguments argstring w) as [[[|]|e] w']; try reflexivity.
  rewrite (find_skip not_a_path xs obj ys Hpath).
  destruct (List.find not_a_path (xs ++ ys)); [reflexivity|].
  rewrite (export_gcode_ext (xs ++ obj :: ys) (xs ++ ys)); [reflexivity|].
  intros gcode m'. apply for_each_skip. intros g s'.
  unfold export_object. rewrite Hin. reflexivity.
Qed.

(** ** The tokens of a command *)

(** X9.  Modal suppression.  For a command of the ordinary kind the line is
    made of the name and then the parameter tokens; in modal mode the
    name is left out when it equals the name of the command recorded last,
    and only then.  The command is recorded whether or not its name was
    written. *)
Theorem modal_suppression pathobj c st m :
  ordinary c = true ->
  parse_command pathobj c st m =
    match emit_params m (currLocation st) c params [] with
    | Ok extra => emit_line (name_tokens m st c ++ extra) (recorded c st) m
    | Raise e => (Raise e, m)
    end.
Proof. apply ordinary_line. Qed.

(** X10.  The message command while comments are on.  The name token is taken
    off and the line is made of the parameter tokens alone, so a message
    without parameters writes no line.  In modal mode, when the command
    recorded last was a message too, the name is already gone: the first
    parameter token is taken off instead, and without any parameter token
    the command raises [IndexError]. *)
Theorem message_with_comments pathobj c st m :
  Name c = "message" ->
  OUTPUT_COMMENTS m = true ->
  parse_command pathobj c st m =
    match emit_params m (currLocation st) c params [] with
    | Ok extra =>
        if MODAL m && bool_decide (lastcommand st = Some "message")
        then match extra with
             | [] => (Raise IndexError, m)
             | _ :: rest => emit_line rest (recorded c st) m
             end
        else emit_line extra (recorded c st) m
    | Raise e => (Raise e, m)
    end.
Proof.
  intros Hname Hon. unfold parse_command, serialize, recorded.
  generalize params. intros ps. rewrite Hname. simpl.
  destruct (MODAL m && bool_decide (lastcommand st = Some "message")); simpl.
  - destruct (emit_params m (currLocation st) c ps []) as [extra|e]; [|reflexivity].
    unfold message_and_line. simpl. rewrite Hon. simpl.
    destruct extra; reflexivity.
  - rewrite (emit_params_from_empty m (currLocation st) c ps ["message"]).
    destruct (emit_params m (currLocation st) c ps []) as [extra|e]; [|reflexivity].
    unfold message_and_line. simpl. rewrite Hon. simpl.
    reflexivity.
Qed.

(** X11.  The integer letters.  For [T], [H], [D] and [S] the loop takes
    the value the command carries to [int]: it appends the letter and the
    value truncated to an integer, or raises what [int] raises
    ([ValueError] for a NaN, [OverflowError] for an infinity, and nothing
    else).  Neither the tracked value nor the duplicate setting, the unit
    or the precision enters. *)
Theorem integer_letters m cur c param v outstring :
  integer_letter param = true ->
  Parameters c !! param = Some v ->
  emit_param m cur c param outstring = append_token outstring param (str_int v) /\
  (forall e, emit_param m cur c param outstring = Raise e ->
             str_int v = Raise e /\ (e = ValueError \/ e = OverflowError)).
Proof.
  unfold integer_letter. intros Hl Hv.
  assert (E : emit_param m cur c param outstring
              = append_token outstring param (str_int v)).
  { unfold emit_param, emit_other. rewrite Hv.
    destruct (String.eqb param "F") eqn:EF.
    { apply String.eqb_eq in EF. subst param. discriminate Hl. }
    destruct (String.eqb param "T"); [reflexivity|].
    destruct (String.eqb param "H"); [reflexivity|].
    destruct (String.eqb param "D"); [reflexivity|].
    destruct (String.eqb param "S"); [reflexivity|].
    discriminate Hl. }
  split; [exact E|]. intros e He. rewrite E in He.
  apply append_token_raises in He. split; [exact He|].
  eapply str_int_raises. exact He.
Qed.

(** X12.  Only the seventeen letters of [params] are ever looked up: two
    commands of the same name that agree on these letters give the same
    tokens, whatever else they carry (a [K], for one, is never written). *)
Theorem other_letters_are_not_written m cur c c' outstring :
  Name c = Name c' ->
  (forall p, In p params -> Parameters c !! p = Parameters c' !! p) ->
  emit_params m cur c params outstring = emit_params m cur c' params outstring.
Proof.
  intros Hname. generalize params. intros ps. revert outstring.
  induction ps as [|p ps IH]; intros outstring Hagree; simpl; [reflexivity|].
  assert (E : emit_param m cur c p outstring = emit_param m cur c' p outstring).
  { unfold emit_param. rewrite Hname, (Hagree p) by (left; reflexivity). reflexivity. }
  rewrite E. destruct (emit_param m cur c' p outstring); [|reflexivity].
  apply IH. intros q Hq. apply Hagree. right. exact Hq.
Qed.

(** ** The line *)

Lemma add_words_words outstring out :
  add_words outstring out = iadd_str out (words outstring).
Proof.
  unfold add_words. revert out.
  induction outstring as [|w ws IH]; intros out; simpl.
  - rewrite iadd_str_empty. reflexivity.
  - rewrite IH, iadd_str_append, append_assoc. reflexivity.
Qed.

(** X13.  The line of a command.  Without a token no line is written and the
    counter rests.  Otherwise every token is followed by one blank, the
    last one too, and the line ends with a newline; with line numbering
    the counter is advanced by ten first and the line begins with [N],
    the new count and two blanks. *)
Theorem line_format outstring st m :
  emit_line outstring st m =
    match outstring with
    | [] => (Ok st, m)
    | _ =>
        if OUTPUT_LINE_NUMBERS m
        then (Ok {| out := iadd_str (out st)
                             ("N" +:+ str_Z (LINENR m + 10) +:+ " " +:+ COMMAND_SPACE
                              +:+ words outstring +:+ NL);
                    lastcommand := lastcommand st;
                    currLocation := currLocation st |},
              set_LINENR (LINENR m + 10) m)
        else (Ok {| out := iadd_str (out st) (words outstring +:+ NL);
                    lastcommand := lastcommand st;
                    currLocation := currLocation st |}, m)
    end.
Proof.
  unfold emit_line. destruct outstring as [|w ws]; [reflexivity|].
  set (toks := w :: ws). unfold bind, linenumber, ret.
  destruct (OUTPUT_LINE_NUMBERS m); cbn [LINENR set_LINENR out lastcommand currLocation].
  - rewrite add_words_words, iadd_str_append. cbn [words].
    rewrite !append_assoc. reflexivity.
  - rewrite add_words_words, iadd_str_append. reflexivity.
Qed.

(** ** Groups *)

Lemma parse_group_from ms t u m :
  parse_group parse ms (OutStr (t +:+ u)) m =
    match parse_group parse ms (OutStr u) m with
    | (Ok (OutStr s), m') => (Ok (OutStr (t +:+ s)), m')
    | (Ok (OutList _), m') => (Raise TypeError, m')
    | (Raise e, m') => (Raise e, m')
    end.
Proof.
  revert t u m. induction ms as [|p ms IH]; intros t u m; simpl; [reflexivity|].
  unfold bind. destruct (parse p m) as [[[s1|l1]|e] m1]; simpl; try reflexivity.
  rewrite append_assoc. apply IH.
Qed.

Lemma parse_group_str ms t m v m' :
  parse_group parse ms (OutStr t) m = (Ok v, m') -> exists s, v = OutStr s.
Proof.
  revert t m. induction ms as [|p ms IH]; intros t m; simpl.
  - intros E. inversion E. eauto.
  - unfold bind. destruct (parse p m) as [[[s1|l1]|e] m1]; simpl; try discriminate.
    apply IH.
Qed.

(** X14.  A group inside a group is transparent: [parse] gives the same result
    and leaves the same globals for a group as for the same group with one
    member group replaced by that group's own members, in place. *)
Theorem nested_group_is_flattened n l a b c xs inner ms ys p t m :
  Group inner = Some ms ->
  parse (mkPathObj n l a b c (Some (xs ++ inner :: ys)) p t) m
    = parse (mkPathObj n l a b c (Some (xs ++ ms ++ ys)) p t) m.
Proof.
  intros Hg. simpl. rewrite !parse_group_app. unfold bind.
  destruct (parse_group parse xs (OutStr "") m) as [[v|e] m1] eqn:E1; [|reflexivity].
  destruct (parse_group_str _ _ _ _ _ E1) as [s ->].
  rewrite parse_group_app. simpl. unfold bind.
  assert (Ein : parse inner m1 = parse_group parse ms (OutStr "") m1).
  { destruct inner as [n' l' a' b' c' g' p' t']. simpl in *. subst g'. reflexivity. }
  rewrite Ein.
  replace (parse_group parse ms (OutStr s) m1)
    with (parse_group parse ms (OutStr (s +:+ "")) m1)
    by (rewrite append_empty_r; reflexivity).
  rewrite parse_group_from.
  destruct (parse_group parse ms (OutStr "") m1) as [[[s1|l1]|e] m2]; reflexivity.
Qed.

(** ** Exceptions *)

Lemma set_LINENR_twice x y m : set_LINENR y (set_LINENR x m) = set_LINENR y m.
Proof. reflexivity. Qed.

(** Each line of a numbered block takes one number. *)
Lemma numbered_lines_counter {B} (add : B -> string -> B) lines suffix acc m :
  LINENR (snd (numbered_lines add lines suffix acc m))
    = if OUTPUT_LINE_NUMBERS m
      then LINENR m + 10 * Z.of_nat (length lines)
      else LINENR m.
Proof.
  unfold numbered_lines. revert acc m.
  induction lines as [|l lines IH]; intros acc m.
  - simpl. destruct (OUTPUT_LINE_NUMBERS m); lia.
  - cbn [for_each]. unfold bind at 1. unfold bind at 1. unfold linenumber.
    destruct (OUTPUT_LINE_NUMBERS m) eqn:Hon; cbn [ret fst snd].
    + rewrite IH. cbn [OUTPUT_LINE_NUMBERS LINENR set_LINENR]. rewrite Hon.
      cbn [length]. lia.
    + rewrite IH, Hon. reflexivity.
Qed.

(** X15.  A tool change on a leaf that has no tool.  Once the first tool change
    of the run has been skipped, an [M6] in a leaf without [Tool], whose
    parameters the loop has taken without an exception, raises
    [AttributeError]; the pre-tool-change block has been numbered by then,
    so with line numbering the counter is left forty higher.  (An
    exception of the parameter loop comes first and leaves the globals
    as they were.) *)
Theorem tool_change_without_tool pathobj c st m :
  Name c = "M6" ->
  first_tool_change_skipped m = true ->
  Tool pathobj = None ->
  match emit_params m (currLocation st) c params [] with
  | Ok _ =>
      fst (parse_command pathobj c st m) = Raise AttributeError /\
      LINENR (snd (parse_command pathobj c st m))
        = (if OUTPUT_LINE_NUMBERS m then LINENR m + 40 else LINENR m)
  | Raise e => parse_command pathobj c st m = (Raise e, m)
  end.
Proof.
  intros Hname Hflag Htool. rewrite (tool_change_step pathobj c st m Hname).
  generalize params. intros ps.
  destruct (emit_params m (currLocation st) c ps []) as [extra|e]; [|reflexivity].
  unfold tool_change. rewrite Hflag. simpl. unfold bind.
  pose proof (numbered_lines_counter iadd_str (splitlines true PRE_TOOL_CHANGE) ""
                (out st) m) as Hc.
  replace (length (splitlines true PRE_TOOL_CHANGE)) with 4%nat in Hc
    by (vm_compute; reflexivity).
  destruct (numbered_lines_returns iadd_str (splitlines true PRE_TOOL_CHANGE) ""
              (out st) m) as (o1 & m1 & E1).
  rewrite E1 in *. rewrite Htool. cbn [fst snd] in Hc. cbv beta iota. cbn [fst snd raise].
  split; [reflexivity|].
  rewrite Hc. destruct (OUTPUT_LINE_NUMBERS m); lia.
Qed.

(** X16.  Where [IndexError] comes from.  A command with an empty name raises
    it at [c.Name[0]]; and so does, in modal mode with comments on, a
    comment that repeats the command recorded last, whose name token has
    been taken off before the comment branch takes it off again.  In both
    cases the globals are as they were. *)
Theorem index_errors pathobj c st m :
  (Name c = "" -> parse_command pathobj c st m = (Raise IndexError, m)) /\
  (String.get 0 (Name c) = Some "("%char ->
   OUTPUT_COMMENTS m = true -> MODAL m = true -> lastcommand st = Some (Name c) ->
   parse_command pathobj c st m = (Raise IndexError, m)).
Proof.
  split.
  - intros Hname. unfold parse_command. rewrite Hname.
    destruct (MODAL m && bool_decide (lastcommand st = Some "")); reflexivity.
  - intros Hget Hon Hmodal Hlast. unfold parse_command.
    rewrite Hmodal, Hget, Hon. rewrite bool_decide_eq_true_2 by exact Hlast.
    reflexivity.
Qed.

Lemma parse_command_no_KeyError pathobj c st m :
  is_Some (currLocation st !! "F") ->
  fst (parse_command pathobj c st m) <> Raise KeyError.
Proof.
  intros HF. unfold parse_command, serialize. generalize params. intros ps.
  assert (Hline : forall toks st0, fst (emit_line toks st0 m) <> Raise KeyError).
  { intros toks st0. unfold emit_line. destruct toks; [discriminate|].
    unfold bind, linenumber. destruct (OUTPUT_LINE_NUMBERS m); discriminate. }
  assert (Hmsg : forall toks st0,
             fst (message_and_line (Name c) toks st0 m) <> Raise KeyError).
  { intros toks st0. unfold message_and_line.
    destruct (String.eqb (Name c) "message"); [|apply Hline].
    destruct (negb (OUTPUT_COMMENTS m)); [apply Hline|].
    destruct (pop_first toks) as [toks'|e] eqn:Ep; [apply Hline|].
    destruct toks; inversion Ep. discriminate. }
  assert (Htool : forall st0, fst (tool_change pathobj st0 m) <> Raise KeyError).
  { intros st0. unfold tool_change.
    destruct (SKIP_FIRST_TOOLCHANGE && negb (first_tool_change_skipped m)); [discriminate|].
    unfold bind.
    destruct (numbered_lines_returns iadd_str (splitlines true PRE_TOOL_CHANGE) ""
                (out st0) m) as (o1 & m1 & ->).
    destruct (Tool pathobj) as [label|]; simpl; [|discriminate].
    destruct (numbered_lines_returns iadd_str (splitlines true TOOL_CHANGE) ""
                (iadd_str o1 (TOOL_CHANGE_NOTIFICATION label)) m1) as (o3 & m3 & ->).
    discriminate. }
  assert (Hser : forall toks,
             fst (match emit_params m (currLocation st) c ps toks with
                  | Ok outstring =>
                      if String.eqb (Name c) "M6"
                      then tool_change pathobj
                             {| out := out st; lastcommand := Some (Name c);
                                currLocation := Parameters c ∪ currLocation st |} m
                      else message_and_line (Name c) outstring
                             {| out := out st; lastcommand := Some (Name c);
                                currLocation := Parameters c ∪ currLocation st |} m
                  | Raise e => (Raise e, m)
                  end) <> Raise KeyError).
  { intros toks.
    destruct (emit_params m (currLocation st) c ps toks) as [extra|e] eqn:Ep.
    - destruct (String.eqb (Name c) "M6"); [apply Htool | apply Hmsg].
    - simpl. intros E. inversion E. subst e.
      destruct (emit_params_raises _ _ _ _ _ _ HF Ep); discriminate. }
  destruct (MODAL m && bool_decide (lastcommand st = Some (Name c))); simpl.
  - destruct (String.get 0 (Name c)) as [c0|]; [|discriminate].
    destruct (Ascii.eqb c0 "("%char).
    + destruct (negb (OUTPUT_COMMENTS m)); discriminate.
    + destruct (String.eqb (Name c) "G99"); [discriminate | apply Hser].
  - destruct (String.get 0 (Name c)) as [c0|]; [|discriminate].
    destruct (Ascii.eqb c0 "("%char).
    + destruct (negb (OUTPUT_COMMENTS m)); [discriminate|]. simpl.
      destruct (String.eqb (Name c) "G99"); [discriminate | apply Hser].
    + destruct (String.eqb (Name c) "G99"); [discriminate | apply Hser].
Qed.

Lemma leaf_no_KeyError pathobj commands st m :
  is_Some (currLocation st !! "F") ->
  fst (for_each commands (parse_command pathobj) st m) <> Raise KeyError.
Proof.
  revert st m. induction commands as [|c commands IH]; intros st m HF; simpl.
  - discriminate.
  - unfold bind. pose proof (parse_command_no_KeyError pathobj c st m HF) as Hc.
    destruct (parse_command pathobj c st m) as [[st1|e] m1] eqn:E1.
    + apply IH. eapply parse_command_keeps_feed; eauto.
    + exact Hc.
Qed.

Lemma parse_group_no_KeyError ms :
  Forall (fun p => forall m, fst (parse p m) <> Raise KeyError) ms ->
  forall out m, fst (parse_group parse ms out m) <> Raise KeyError.
Proof.
  induction 1 as [|p ms Hp _ IH]; intros out m; simpl; [discriminate|].
  unfold bind. specialize (Hp m). destruct (parse p m) as [[v|e] m1]; [|exact Hp].
  unfold lift_res. destruct (iadd out v) as [out'|e] eqn:Ei.
  - apply IH.
  - destruct out, v; simpl in Ei; inversion Ei. discriminate.
Qed.

(** X17.  The lookup of the tracked feed cannot fail: whatever the containers
    and the settings, [parse] never raises [KeyError]. *)
Theorem parse_never_raises_KeyError pathobj m :
  fst (parse pathobj m) <> Raise KeyError.
Proof.
  revert m.
  induction pathobj as [n l a b c p t | n l a b c members p t IH]
    using PathObj_nested_ind; intros m; simpl.
  - destruct p as [commands|]; [|discriminate].
    unfold bind.
    pose proof (leaf_no_KeyError (mkPathObj n l a b c None (Some commands) t)
                  commands initial_loop m initial_loop_has_feed) as Hl.
    destruct (for_each commands _ initial_loop m) as [[st|e] m1]; [discriminate|].
    simpl in *. intros E. apply Hl. inversion E. reflexivity.
  - apply parse_group_no_KeyError. exact IH.
Qed.

(** ** Runs that cannot fail *)

Section Settled.
Variable cfg : Module.












Lemma settled_first_tool_change pathobj st :
  loop_ok st ->
  forall m, config m = cfg -> first_tool_change_skipped m = false ->
    exists st' m', tool_change pathobj st m = (Ok st', m') /\ config m' = cfg /\ loop_ok st'.
Proof.
  intros Hok m Hm Hflag. unfold tool_change. rewrite Hflag. simpl.
  eexists _, _. split; [reflexivity|]. auto.
Qed.







End Settled.


(** ** The text without line numbers *)

Lemma config_export_object obj gcode m :
  config (snd (export_object obj gcode m)) = config m.
Proof.
  apply (preserves_export_object (fun a b => config b = config a)); try reflexivity.
  intros a b c Hab Hbc. congruence.
Qed.

Lemma config_of_parse pathobj m : config (snd (parse pathobj m)) = config m.
Proof.
  apply (preserves_parse (fun a b => config b = config a)); try reflexivity.
  intros a b c Hab Hbc. congruence.
Qed.

Lemma add_numbered_off text gcode m :
  OUTPUT_LINE_NUMBERS m = false -> add_numbered text gcode m = (Ok (gcode +:+ text), m).
Proof. intros Hoff. unfold add_numbered, bind, linenumber. rewrite Hoff. reflexivity. Qed.

Lemma numbered_lines_append_off lines suffix gcode m :
  OUTPUT_LINE_NUMBERS m = false ->
  numbered_lines String.append lines suffix gcode m
    = (Ok (gcode +:+ join_lines suffix lines), m).
Proof.
  intros Hoff. unfold numbered_lines. revert gcode.
  induction lines as [|l lines IH]; intros gcode.
  - simpl. rewrite append_empty_r. reflexivity.
  - cbn [for_each]. unfold bind at 1. unfold bind at 1. unfold linenumber.
    rewrite Hoff. cbn [ret]. rewrite IH. cbn [join_lines].
    change ("" +:+ l +:+ suffix) with (l +:+ suffix).
    rewrite !append_assoc. reflexivity.
Qed.

Lemma export_object_off obj gcode m :
  OUTPUT_LINE_NUMBERS m = false ->
  inactive obj = false ->
  export_object obj gcode m =
    match parse obj m with
    | (Ok (OutStr body), m') =>
        (Ok (gcode +:+ opening m obj +:+ body +:+ NL +:+ closing m obj), m')
    | (Ok (OutList _), m') => (Raise TypeError, m')
    | (Raise e, m') => (Raise e, m')
    end.
Proof.
  intros Hoff Hact. unfold export_object, opening, closing. rewrite Hact.
  unfold bind at 1. unfold when at 1.
  assert (E1 : (if OUTPUT_COMMENTS m
                then add_numbered ("[Operation: " +:+ Label obj +:+ " (" +:+
                       UNIT_SPEED_FORMAT m +:+ ")]" +:+ NL) gcode
                else ret gcode) m
               = (Ok (gcode +:+ (if OUTPUT_COMMENTS m
                                 then "[Operation: " +:+ Label obj +:+ " (" +:+
                                      UNIT_SPEED_FORMAT m +:+ ")]" +:+ NL
                                 else "")), m)).
  { destruct (OUTPUT_COMMENTS m); [apply add_numbered_off; exact Hoff|].
    unfold ret. rewrite append_empty_r. reflexivity. }
  rewrite E1. clear E1.
  unfold bind at 1. rewrite (numbered_lines_append_off _ _ _ _ Hoff).
  replace (join_lines NL (splitlines true PRE_OPERATION)) with "" by reflexivity.
  rewrite append_empty_r.
  unfold bind at 1. unfold when at 1.
  match goal with
  | |- context [(if OUTPUT_COMMENTS m && ?b then add_numbered ?t ?g else ret ?g) m] =>
      assert (E2 : (if OUTPUT_COMMENTS m && b then add_numbered t g else ret g) m
                   = (Ok (g +:+ (if OUTPUT_COMMENTS m && b then t else "")), m))
        by (destruct (OUTPUT_COMMENTS m && b);
            [apply add_numbered_off; exact Hoff
            | unfold ret; rewrite append_empty_r; reflexivity]);
      rewrite E2; clear E2
  end.
  unfold bind at 1. unfold when at 1.
  match goal with
  | |- context [(if String.eqb (coolant_mode obj) "Flood"
                 then add_numbered ?t ?g else ret ?g) m] =>
      assert (E3 : (if String.eqb (coolant_mode obj) "Flood"
                    then add_numbered t g else ret g) m
                   = (Ok (g +:+ (if String.eqb (coolant_mode obj) "Flood"
                                 then t else "")), m))
        by (destruct (String.eqb (coolant_mode obj) "Flood");
            [apply add_numbered_off; exact Hoff
            | unfold ret; rewrite append_empty_r; reflexivity]);
      rewrite E3; clear E3
  end.
  unfold bind at 1. unfold when at 1.
  match goal with
  | |- context [(if String.eqb (coolant_mode obj) "Mist"
                 then add_numbered ?t ?g else ret ?g) m] =>
      assert (E4 : (if String.eqb (coolant_mode obj) "Mist"
                    then add_numbered t g else ret g) m
                   = (Ok (g +:+ (if String.eqb (coolant_mode obj) "Mist"
                                 then t else "")), m))
        by (destruct (String.eqb (coolant_mode obj) "Mist");
            [apply add_numbered_off; exact Hoff
            | unfold ret; rewrite append_empty_r; reflexivity]);
      rewrite E4; clear E4
  end.
  unfold bind at 1.
  pose proof (config_of_parse obj m) as Hcfg.
  destruct (parse obj m) as [[[body|chars]|e] m'] eqn:Ep; [| reflexivity | reflexivity].
  simpl in Hcfg.
  assert (Hoff' : OUTPUT_LINE_NUMBERS m' = false).
  { apply (f_equal OUTPUT_LINE_NUMBERS) in Hcfg. simpl in Hcfg. congruence. }
  assert (Hcom : OUTPUT_COMMENTS m' = OUTPUT_COMMENTS m).
  { apply (f_equal OUTPUT_COMMENTS) in Hcfg. exact Hcfg. }
  cbn [iadd lift_res]. unfold bind at 1. cbn [lift_res].
  unfold bind at 1. rewrite (numbered_lines_append_off _ _ _ _ Hoff').
  replace (join_lines "" (splitlines true POST_OPERATION)) with "" by reflexivity.
  rewrite append_empty_r.
  destruct (negb (String.eqb (coolant_mode obj) "None")).
  - unfold bind, when. rewrite Hcom. destruct (OUTPUT_COMMENTS m).
    + rewrite (add_numbered_off _ _ _ Hoff'), (add_numbered_off _ _ _ Hoff').
      rewrite !append_assoc. reflexivity.
    + unfold ret. rewrite (add_numbered_off _ _ _ Hoff').
      rewrite !append_assoc. reflexivity.
  - unfold ret. rewrite !append_assoc, append_empty_r. reflexivity.
Qed.

(** X19.  The block of an operation.  Without line numbers, an operation that
    is switched off adds nothing; any other adds its opening (the
    operation comment, the coolant comment, [M8] for Flood or [M7] for
    Mist), the text of its commands, an empty line and its closing: for
    every coolant mode but None, Flood and Mist or not, the coolant
    comment and [M9]. *)
Theorem operation_block obj gcode m :
  OUTPUT_LINE_NUMBERS m = false ->
  export_object obj gcode m =
    if inactive obj then (Ok gcode, m)
    else match parse obj m with
         | (Ok (OutStr body), m') =>
             (Ok (gcode +:+ opening m obj +:+ body +:+ NL +:+ closing m obj), m')
         | (Ok (OutList _), m') => (Raise TypeError, m')
         | (Raise e, m') => (Raise e, m')
         end.
Proof.
  intros Hoff. destruct (inactive obj) eqn:Hact.
  - unfold export_object. rewrite Hact. reflexivity.
  - apply export_object_off; assumption.
Qed.

Lemma objects_from objectslist g u m :
  OUTPUT_LINE_NUMBERS m = false ->
  for_each objectslist export_object (g +:+ u) m =
    match for_each objectslist export_object u m with
    | (Ok body, m') => (Ok (g +:+ body), m')
    | (Raise e, m') => (Raise e, m')
    end.
Proof.
  revert g u m. induction objectslist as [|o os IH]; intros g u m Hoff; simpl.
  - reflexivity.
  - unfold bind. destruct (inactive o) eqn:Hact.
    + unfold export_object. rewrite Hact. unfold ret. apply IH. exact Hoff.
    + rewrite !(export_object_off _ _ _ Hoff Hact).
      pose proof (config_of_parse o m) as Hcfg.
      destruct (parse o m) as [[[body|chars]|e] m'']; try reflexivity.
      simpl in Hcfg. rewrite append_assoc. apply IH.
      apply (f_equal OUTPUT_LINE_NUMBERS) in Hcfg. simpl in Hcfg. congruence.
Qed.

Lemma config_objects objectslist gcode m :
  config (snd (for_each objectslist export_object gcode m)) = config m.
Proof.
  apply (preserves_for_each (fun a b => config b = config a)); try reflexivity.
  - intros a b c Hab Hbc. congruence.
  - intros obj g m'. apply config_export_object.
Qed.

(** X20.  The text without line numbers is the head (header, preamble, units
    line), then the blocks of the operations in the order of the list,
    then the tail (postamble); for an empty list it is the head and the
    tail, and the globals are left as they were. *)
Theorem export_text_structure objectslist m :
  OUTPUT_LINE_NUMBERS m = false ->
  export_gcode objectslist m =
    match for_each objectslist export_object "" m with
    | (Ok body, m') => (Ok (head_text m +:+ body +:+ tail_text m), m')
    | (Raise e, m') => (Raise e, m')
    end /\
  export_gcode [] m = (Ok (head_text m +:+ tail_text m), m).
Proof.
  intros Hoff.
  assert (Hgen : forall objs,
    export_gcode objs m =
      match for_each objs export_object "" m with
      | (Ok body, m') => (Ok (head_text m +:+ body +:+ tail_text m), m')
      | (Raise e, m') => (Raise e, m')
      end).
  { intros objs. unfold export_gcode, head_text, tail_text.
    unfold bind at 1. unfold when at 1.
    assert (E1 : forall g,
      (if OUTPUT_HEADER m
       then (fun gcode =>
               bind (add_numbered ("[Exported by FreeCAD]" +:+ NL) gcode) (fun gcode0 =>
               bind (add_numbered ("[Post Processor: " +:+ module_name +:+ "]" +:+ NL) gcode0)
                 (fun gcode1 =>
                    add_numbered ("[Output Time:" +:+ now m +:+ "]" +:+ NL +:+ NL) gcode1))) g
       else ret g) m
      = (Ok (g +:+ (if OUTPUT_HEADER m
                    then "[Exported by FreeCAD]" +:+ NL +:+
                         "[Post Processor: " +:+ module_name +:+ "]" +:+ NL +:+
                         "[Output Time:" +:+ now m +:+ "]" +:+ NL +:+ NL
                    else "")), m)).
    { intros g. destruct (OUTPUT_HEADER m).
      - unfold bind. rewrite !(add_numbered_off _ _ _ Hoff). rewrite !append_assoc.
        reflexivity.
      - unfold ret. rewrite append_empty_r. reflexivity. }
    rewrite E1. clear E1.
    unfold bind at 1. unfold when at 1.
    assert (E2 : forall g,
      (if OUTPUT_COMMENTS m then add_numbered ("[Begin Preamble]" +:+ NL) g else ret g) m
      = (Ok (g +:+ (if OUTPUT_COMMENTS m then "[Begin Preamble]" +:+ NL else "")), m)).
    { intros g. destruct (OUTPUT_COMMENTS m); [apply add_numbered_off; exact Hoff|].
      unfold ret. rewrite append_empty_r. reflexivity. }
    rewrite E2. clear E2.
    unfold bind at 1. rewrite (numbered_lines_append_off _ _ _ _ Hoff).
    unfold bind at 1. rewrite (add_numbered_off _ _ _ Hoff).
    unfold bind at 1.
    match goal with
    | |- context [for_each objs export_object ?g m] =>
        replace g with (g +:+ "") by apply append_empty_r;
        rewrite (objects_from objs g "" m Hoff)
    end.
    pose proof (config_objects objs "" m) as Hcfg.
    destruct (for_each objs export_object "" m) as [[body|e] m']; [|reflexivity].
    simpl in Hcfg.
    assert (Hoff' : OUTPUT_LINE_NUMBERS m' = false).
    { apply (f_equal OUTPUT_LINE_NUMBERS) in Hcfg. simpl in Hcfg. congruence. }
    assert (Hcom : OUTPUT_COMMENTS m' = OUTPUT_COMMENTS m).
    { apply (f_equal OUTPUT_COMMENTS) in Hcfg. exact Hcfg. }
    assert (Hpost : POSTAMBLE m' = POSTAMBLE m).
    { apply (f_equal POSTAMBLE) in Hcfg. exact Hcfg. }
    unfold bind, ret. rewrite (numbered_lines_append_off _ _ _ _ Hoff'), Hcom, Hpost.
    destruct (OUTPUT_COMMENTS m); rewrite !append_assoc; reflexivity. }
  split; [apply Hgen|].
  rewrite (Hgen []). simpl. reflexivity.
Qed.

(** ** Comments while comments are off *)

Lemma for_each_filter_under {S A B} (P : S -> Prop) (keep : A -> bool) (l : list A)
    (body : A -> B -> M S B) acc s :
  (forall x b s0, P s0 -> P (snd (body x b s0))) ->
  (forall x b s0, P s0 -> keep x = false -> body x b s0 = (Ok b, s0)) ->
  P s ->
  for_each (List.filter keep l) body acc s = for_each l body acc s.
Proof.
  intros Hkeep Hskip. revert acc s.
  induction l as [|x l IH]; intros acc s Hs; simpl; [reflexivity|].
  destruct (keep x) eqn:Ek; simpl.
  - unfold bind. pose proof (Hkeep x acc s Hs) as Hs'.
    destruct (body x acc s) as [[b|e] s']; [apply IH; exact Hs' | reflexivity].
  - unfold bind. rewrite (Hskip _ _ _ Hs Ek). apply IH. exact Hs.
Qed.

Lemma parse_command_comment_off pathobj c st m :
  OUTPUT_COMMENTS m = false -> is_comment c = true ->
  parse_command pathobj c st m = (Ok st, m).
Proof.
  unfold is_comment. intros Hoff Hc.
  destruct (String.get 0 (Name c)) as [c0|] eqn:Hget; [|discriminate].
  unfold parse_command. rewrite Hget, Hc, Hoff.
  destruct (MODAL m && bool_decide (lastcommand st = Some (Name c))); reflexivity.
Qed.

Lemma comments_stay_off_command pathobj c st m :
  OUTPUT_COMMENTS m = false ->
  OUTPUT_COMMENTS (snd (parse_command pathobj c st m)) = false.
Proof.
  intros Hoff.
  pose proof (preserves_parse_command (fun a b => config b = config a)
                (fun _ => eq_refl) (fun a b c Hab Hbc => eq_trans Hbc Hab)
                (fun _ _ => eq_refl) (fun _ _ => eq_refl) pathobj c st m) as E.
  apply (f_equal OUTPUT_COMMENTS) in E. simpl in E. congruence.
Qed.

Lemma parse_group_ext_under (P : Module -> Prop) (ms : list (PathObj num))
    (f : PathObj num -> PathObj num) :
  (forall p m, P m -> P (snd (parse p m))) ->
  Forall (fun p => forall m, P m -> parse (f p) m = parse p m) ms ->
  forall out m, P m ->
    parse_group parse (List.map f ms) out m = parse_group parse ms out m.
Proof.
  intros Hkeep. induction 1 as [|p ms Hp _ IH]; intros out m Hm; simpl; [reflexivity|].
  unfold bind. rewrite (Hp m Hm). pose proof (Hkeep p m Hm) as Hm'.
  destruct (parse p m) as [[v|e] m']; [|reflexivity].
  unfold lift_res. destruct (iadd out v); [apply IH; exact Hm' | reflexivity].
Qed.

(** X21.  While comments are off, comment commands are invisible: [parse]
    returns the same result and leaves the same globals for a container as
    for that container with every comment command removed, in modal mode
    too, since a dropped comment is not recorded as the last command. *)
Theorem comments_off_are_invisible pathobj m :
  OUTPUT_COMMENTS m = false ->
  parse (without_comments pathobj) m = parse pathobj m.
Proof.
  revert m.
  induction pathobj as [n l a b c p t | n l a b c members p t IH]
    using PathObj_nested_ind; intros m Hoff; simpl.
  - destruct p as [commands|]; simpl; [|reflexivity].
    unfold bind.
    rewrite (for_each_filter_under (fun m0 => OUTPUT_COMMENTS m0 = false)).
    + rewrite (for_each_ext commands _
                 (parse_command (mkPathObj n l a b c None (Some commands) t)));
        [reflexivity|].
      intros x st m'. apply parse_command_same_tool. reflexivity.
    + intros x st m0 H0. apply comments_stay_off_command. exact H0.
    + intros x st m0 H0 Hx. apply parse_command_comment_off; [exact H0|].
      apply negb_false_iff in Hx. exact Hx.
    + exact Hoff.
  - apply (parse_group_ext_under (fun m0 => OUTPUT_COMMENTS m0 = false)).
    + intros q m0 H0. pose proof (config_of_parse q m0) as E.
      apply (f_equal OUTPUT_COMMENTS) in E. simpl in E. congruence.
    + exact IH.
    + exact Hoff.
Qed.

End Coverage.

(** * Further runs on the test host *)

Section CoverageRuns.
Import TestHost.

Lemma counter_rests_witness :
  LINENR (module (snd (export [operation "Op" [move; move] None] "-" plain (fresh t0))))
    = LINENR (module (fresh t0)).
Proof. apply counter_rests_without_numbering; vm_compute; reflexivity. Defined.

Lemma switches_witness :
  OUTPUT_COMMENTS
    (module (snd (export [] "-" "" (snd (export [] "-" plain (fresh t0)))))) = false.
Proof.
  apply (proj1 (switches_are_one_way [] "-" "" (snd (export [] "-" plain (fresh t0))))).
  vm_compute; reflexivity.
Defined.

Lemma inches_witness :
  UNITS (module (snd (export [] "-" "--inches" (fresh t0)))) = "G20" /\
  UNIT_FORMAT (module (snd (export [] "-" "--inches" (fresh t0)))) = "in" /\
  UNIT_SPEED_FORMAT (module (snd (export [] "-" "--inches" (fresh t0)))) = "in/min".
Proof. apply output_unit_stays_inches; reflexivity. Defined.


Lemma inactive_witness :
  export ([operation "A" [move] None]
            ++ mkPathObj "Idle" "Idle" (Some false) None None None (Some [feed_move]) None
            :: [operation "B" [move] None]) "-" plain (fresh t0)
    = export ([operation "A" [move] None] ++ [operation "B" [move] None])
        "-" plain (fresh t0).
Proof. apply inactive_operation_is_skipped; reflexivity. Defined.

Lemma modal_suppression_witness :
  parse_command (operation "Op" [] None) move initial_loop plain_module
    = match emit_params plain_module (currLocation initial_loop) move params [] with
      | Ok extra =>
          emit_line (name_tokens plain_module initial_loop move ++ extra)
            (recorded move initial_loop) plain_module
      | Raise e => (Raise e, plain_module)
      end.
Proof. apply modal_suppression; reflexivity. Defined.

Lemma message_witness :
  parse_command (operation "Op" [] None) (cmd "message" []) initial_loop (imported t0)
    = match emit_params (imported t0) (currLocation initial_loop) (cmd "message" [])
              params [] with
      | Ok extra =>
          if MODAL (imported t0) && bool_decide (lastcommand initial_loop = Some "message")
          then match extra with
               | [] => (Raise IndexError, imported t0)
               | _ :: rest =>
                   emit_line rest (recorded (cmd "message" []) initial_loop) (imported t0)
               end
          else emit_line extra (recorded (cmd "message" []) initial_loop) (imported t0)
      | Raise e => (Raise e, imported t0)
      end.
Proof. apply message_with_comments; reflexivity. Defined.

Lemma integer_letters_witness :
  emit_param (imported t0) (currLocation initial_loop) change_T1 "T" ["M6"]
    = Ok ["M6"; "T1"].
Proof.
  assert (H1 : Parameters change_T1 !! "T" = Some (float_of_Z 1))
    by (vm_compute; reflexivity).
  etransitivity;
    [exact (proj1 (integer_letters (imported t0) (currLocation initial_loop) change_T1
                     "T" (float_of_Z 1) ["M6"] eq_refl H1))
    | vm_compute; reflexivity].
Defined.

Lemma other_letters_witness :
  emit_params (imported t0) (currLocation initial_loop)
    (cmd "G2" [("X", inch); ("K", float_of_Z 5)]) params []
  = emit_params (imported t0) (currLocation initial_loop)
      (cmd "G2" [("X", inch)]) params [].
Proof.
  apply other_letters_are_not_written; [reflexivity|].
  intros p Hp. simpl in Hp.
  repeat (destruct Hp as [<-|Hp]; [vm_compute; reflexivity|]).
  destruct Hp.
Defined.

Lemma nested_group_witness :
  parse (compound "Job"
           ([] ++ compound "Inner" [operation "A" [move] None; operation "B" [move] None]
               :: [operation "C" [move] None])) plain_module
    = parse (compound "Job"
               ([] ++ [operation "A" [move] None; operation "B" [move] None]
                   ++ [operation "C" [move] None])) plain_module.
Proof.
  exact (nested_group_is_flattened "Job" "Job" None None None []
           (compound "Inner" [operation "A" [move] None; operation "B" [move] None])
           [operation "A" [move] None; operation "B" [move] None]
           [operation "C" [move] None] (Some []) None plain_module eq_refl).
Defined.

Lemma tool_change_without_tool_witness :
  fst (parse_command (operation "Op" [] None) change_T1 initial_loop
         (set_first_tool_change_skipped true (imported t0))) = Raise AttributeError /\
  LINENR (snd (parse_command (operation "Op" [] None) change_T1 initial_loop
                 (set_first_tool_change_skipped true (imported t0))))
    = if OUTPUT_LINE_NUMBERS (set_first_tool_change_skipped true (imported t0))
      then LINENR (set_first_tool_change_skipped true (imported t0)) + 40
      else LINENR (set_first_tool_change_skipped true (imported t0)).
Proof.
  exact (tool_change_without_tool (operation "Op" [] None) change_T1 initial_loop
           (set_first_tool_change_skipped true (imported t0)) eq_refl eq_refl eq_refl).
Defined.

Lemma index_error_witness :
  parse_command (operation "Op" [] None) (cmd "" []) initial_loop plain_module
    = (Raise IndexError, plain_module).
Proof.
  apply (proj1 (index_errors (operation "Op" [] None) (cmd "" []) initial_loop
                  plain_module)).
  reflexivity.
Defined.


Lemma operation_block_witness :
  export_object (operation "Op" [move] None) "" plain_module
    = if inactive (operation "Op" [move] None) then (Ok "", plain_module)
      else match parse (operation "Op" [move] None) plain_module with
           | (Ok (OutStr body), m') =>
               (Ok ("" +:+ opening plain_module (operation "Op" [move] None) +:+ body
                    +:+ NL +:+ closing plain_module (operation "Op" [move] None)), m')
           | (Ok (OutList _), m') => (Raise TypeError, m')
           | (Raise e, m') => (Raise e, m')
           end.
Proof. apply operation_block. vm_compute; reflexivity. Defined.

Lemma export_text_structure_witness :
  export_gcode [] plain_module
    = (Ok (head_text plain_module +:+ tail_text plain_module), plain_module).
Proof.
  refine (proj2 (export_text_structure [] plain_module _)). vm_compute; reflexivity.
Defined.

Lemma comments_off_witness :
  parse (without_comments (operation "Op" [cmd "(note)" []; move] None)) plain_module
    = parse (operation "Op" [cmd "(note)" []; move] None) plain_module.
Proof. apply comments_off_are_invisible. vm_compute; reflexivity. Defined.

End CoverageRuns.
